(** * Conference Central: query filters, registration, wishlist and the
      featured-speaker task

    A shallow embedding of the request handlers of [conference.py] and
    [main.py].  The datastore, memcache and the current user are explicit
    state; Python exceptions are an outcome of a small state-and-exception
    monad; [ndb.transactional] rolls the state back when the body raises. *)

From Stdlib Require Import ZArith Ascii String List.
From stdpp Require Import gmap strings list fin_maps.

Local Open Scope string_scope.
Local Open Scope list_scope.
Local Open Scope Z_scope.

(** ** Python values and built-ins used by the handlers *)

(** A filter value is a string on the wire and an integer once coerced. *)
Inductive PyValue :=
  | PyStr (s : string)
  | PyInt (n : Z).

(** The exceptions the handlers raise.  The [endpoints] exceptions carry their
    message; [ValueError] carries the literal [int()] rejected. *)
Inductive Exc :=
  | UnauthorizedException (msg : string)
  | NotFoundException (msg : string)
  | ConflictException (msg : string)
  | BadRequestException (msg : string)
  | ValueError (literal : string)
  | AttributeError (attr : string).

Inductive Outcome (A : Type) :=
  | Return (a : A)
  | Raise (e : Exc).
Arguments Return {A} a.
Arguments Raise {A} e.

(** [str.isspace] on one ASCII character: space, or tab to carriage return. *)
Definition is_space (a : ascii) : bool :=
  let n := nat_of_ascii a in
  (Nat.eqb n 32 || (Nat.leb 9 n && Nat.leb n 13))%bool.

Fixpoint lstrip (l : list ascii) : list ascii :=
  match l with
  | a :: l' => if is_space a then lstrip l' else l
  | [] => []
  end.

Definition strip (l : list ascii) : list ascii :=
  rev (lstrip (rev (lstrip l))).

Definition digit_val (a : ascii) : option Z :=
  let n := nat_of_ascii a in
  if (Nat.leb 48 n && Nat.leb n 57)%bool then Some (Z.of_nat (n - 48)) else None.

Fixpoint digits (acc : Z) (l : list ascii) : option Z :=
  match l with
  | [] => Some acc
  | a :: l' =>
      match digit_val a with
      | Some d => digits (10 * acc + d) l'
      | None => None
      end
  end.

Definition unsigned_literal (l : list ascii) : option Z :=
  match l with
  | [] => None
  | _ :: _ => digits 0 l
  end.

(** [int(s)] on a string, base 10: surrounding whitespace is dropped, one
    sign is allowed, and at least one decimal digit must follow.  The model
    reads ASCII: a value it accepts is accepted by [int()] with the same
    result; a value it rejects is rejected by [int()] when it is made of
    rejected by [int()] as well (see [not_an_integer_literal] and
    [decided_value] below); digits and blanks outside ASCII are not
    modelled. *)
Definition int_literal (s : string) : option Z :=
  match strip (list_ascii_of_string s) with
  | "+"%char :: ds => unsigned_literal ds
  | "-"%char :: ds => Z.opp <$> unsigned_literal ds
  | ds => unsigned_literal ds
  end.

Definition py_int (s : string) : Outcome Z :=
  match int_literal s with
  | Some n => Return n
  | None => Raise (ValueError s)
  end.

(** [l.remove(x)] when [x in l]: the first occurrence goes. *)
Fixpoint list_remove (x : string) (l : list string) : list string :=
  match l with
  | [] => []
  | y :: l' => if decide (x = y) then l' else y :: list_remove x l'
  end.

(** [x in l] *)
Definition py_in (x : string) (l : list string) : bool := bool_decide (x ∈ l).

(** ** The query filter compiler ([_formatFilters], [_getQuery]) *)

Definition OPERATORS : gmap string string :=
  list_to_map
    [("EQ", "="); ("GT", ">"); ("GTEQ", ">="); ("LT", "<"); ("LTEQ", "<=");
     ("NE", "!=")].

Definition FIELDS : gmap string string :=
  list_to_map
    [("CITY", "city"); ("TOPIC", "topics"); ("MONTH", "month");
     ("MAX_ATTENDEES", "maxAttendees")].

(** Modelled from the spec: one entry of [request.filters], a
    [models.ConferenceQueryForm] with its three string fields. *)
Record ConferenceQueryForm := {
  field : string;
  operator : string;
  value : string
}.

(** The dictionary [filtr] built from one form, after the two look-ups. *)
Record filtr := {
  filtr_field : string;
  filtr_operator : string;
  filtr_value : string
}.

(** The arguments of one [ndb.query.FilterNode(name, opsymbol, value)]
    call.  For the symbol ["!="] [ndb] builds the disjunction of the ["<"]
    and [">"] nodes from them; the model keeps the call as written. *)
Record FilterNode := {
  node_name : string;
  node_opsymbol : string;
  node_value : PyValue
}.

(** A [Conference.query()]: [order] appends a sort key of lower priority,
    [filter] adds one conjunct ([filters] lists the [FilterNode] calls in
    the order [q.filter] received them). *)
Record Query := {
  orders : list string;
  filters : list FilterNode
}.

Definition Conference_query : Query := {| orders := []; filters := [] |}.

Definition order (q : Query) (prop : string) : Query :=
  {| orders := orders q ++ [prop]; filters := filters q |}.

Definition filter_ (q : Query) (n : FilterNode) : Query :=
  {| orders := orders q; filters := filters q ++ [n] |}.

(** Truth value of [inequality_field]: [None] and the empty string are false. *)
Definition truthy (o : option string) : bool :=
  match o with
  | Some s => negb (bool_decide (s = EmptyString))
  | None => false
  end.

(** The body of [for f in filters] in [_formatFilters], from the loop state
    [(inequality_field, formatted_filters)]. *)
Fixpoint _formatFilters_loop (fs : list ConferenceQueryForm)
    (inequality_field : option string) (formatted_filters : list filtr)
    : Outcome (option string * list filtr) :=
  match fs with
  | [] => Return (inequality_field, formatted_filters)
  | f :: fs' =>
      match FIELDS !! field f, OPERATORS !! operator f with
      | Some fld, Some op =>
          let d := {| filtr_field := fld; filtr_operator := op;
                      filtr_value := value f |} in
          if bool_decide (op ≠ "=") then
            if (truthy inequality_field
                && bool_decide (inequality_field ≠ Some fld))%bool
            then Raise (BadRequestException
                          "Inequality filter is allowed on only one field.")
            else _formatFilters_loop fs' (Some fld) (formatted_filters ++ [d])
          else _formatFilters_loop fs' inequality_field (formatted_filters ++ [d])
      | _, _ =>
          Raise (BadRequestException
                   "Filter contains invalid field or operator.")
      end
  end.

Definition _formatFilters (fs : list ConferenceQueryForm)
    : Outcome (option string * list filtr) :=
  _formatFilters_loop fs None [].

(** The body of [for filtr in filters] in [_getQuery]. *)
Fixpoint _getQuery_loop (ds : list filtr) (q : Query) : Outcome Query :=
  match ds with
  | [] => Return q
  | d :: ds' =>
      let coerced :=
        if bool_decide (filtr_field d ∈ ["month"; "maxAttendees"])
        then match py_int (filtr_value d) with
             | Return n => Return (PyInt n)
             | Raise e => Raise e
             end
        else Return (PyStr (filtr_value d)) in
      match coerced with
      | Return v =>
          let formatted_query :=
            {| node_name := filtr_field d; node_opsymbol := filtr_operator d;
               node_value := v |} in
          _getQuery_loop ds' (filter_ q formatted_query)
      | Raise e => Raise e
      end
  end.

Definition _getQuery (request_filters : list ConferenceQueryForm)
    : Outcome Query :=
  let q := Conference_query in
  match _formatFilters request_filters with
  | Raise e => Raise e
  | Return (inequality_filter, ds) =>
      let q :=
        if negb (truthy inequality_filter) then order q "name"
        else match inequality_filter with
             | Some p => order (order q p) "name"
             | None => order q "name"
             end in
      _getQuery_loop ds q
  end.

(** ** The data model *)

(** Modelled from the spec: the [ndb] models of [models.py] are not among the
    sources.  Each record has the attributes of the spec's data model that
    the handlers read or write, under the names [conference.py] and
    [main.py] use for them. *)
Record Conference := {
  Conference_name : string;
  city : string;
  topics : list string;
  month : Z;
  maxAttendees : Z;
  seatsAvailable : Z;
  organizerUserId : string
}.

(** Modelled from the spec: [models.Profile]; the two key lists are
    repeated string properties holding url-safe keys. *)
Record Profile := {
  displayName : string;
  mainEmail : string;
  teeShirtSize : string;
  conferenceKeysToAttend : list string;
  sessionKeysOnWishlist : list string
}.

(** Modelled from the spec: [models.Session], with the two properties the
    task handler queries on. *)
Record Session := {
  Session_name : string;
  typeOfSession : string;
  speakerKey : string;
  websafeConferenceKey : string
}.

(** Modelled from the spec: [models.Speaker]; [sessions] is the denormalised
    list of session names and [sessions_count] its recorded length. *)
Record Speaker := {
  Speaker_name : string;
  sessions : list string;
  sessions_count : Z
}.

(** What [ndb.Key(urlsafe=k).get()] can return: the key alone decides the
    kind, the handlers never check it.  The datastore maps each stored
    entity's url-safe key, in the spelling [key.urlsafe()] gives, to the
    entity; the model covers requests that carry such a spelling, or a
    well-formed key that names nothing.  The decoding error of a string
    that is no key, and the other spellings the decoder tolerates for a
    stored key, are outside the model. *)
Inductive Entity :=
  | EConference (c : Conference)
  | ESession (s : Session)
  | ESpeaker (sp : Speaker).

(** The signed-in user, as [endpoints.get_current_user()] gives it;
    [user_id] is [getUserId(user)]. *)
Record User := {
  user_id : string;
  nickname : string;
  email : string
}.

(** The world a request runs in: the entities addressed by url-safe key, the
    [Profile] kind addressed by user id (the handlers only ever build a
    profile key as [ndb.Key(Profile, user_id)]), memcache, and the user of
    the request. *)
Record World := {
  datastore : gmap string Entity;
  profiles : gmap string Profile;
  memcache : gmap string string;
  current_user : option User
}.

(** Modelled from the spec: [models.BooleanMessage], the positive or
    negative result of a handler. *)
Record BooleanMessage := { data : bool }.

(** The parameters of a [/tasks/set_featured_speaker] task. *)
Record Task := {
  task_speakerKey : string;
  task_speakerName : string;
  task_sessionName : string;
  task_websafeConferenceKey : string
}.

Definition MEMCACHE_FEATURED_SPEAKER : string := "FEATURED_SPEAKER".

(** ** State and exceptions *)

Definition M (A : Type) : Type := World → Outcome A * World.

Definition ret {A} (a : A) : M A := λ w, (Return a, w).

Definition bind {A B} (m : M A) (k : A → M B) : M B :=
  λ w, match m w with
       | (Return a, w') => k a w'
       | (Raise e, w') => (Raise e, w')
       end.

Definition raise {A} (e : Exc) : M A := λ w, (Raise e, w).

Declare Scope handler_scope.
Delimit Scope handler_scope with handler.
Notation "'let!' x := m 'in' k" := (bind m (λ x, k))
  (at level 10, x pattern, m at level 100, k at level 200) : handler_scope.
Notation "m ;;; k" := (bind m (λ _, k))
  (at level 100, k at level 200, right associativity) : handler_scope.
Local Open Scope handler_scope.

(** [try: body / except: handler]: the handler runs in the state the body
    left behind. *)
Definition try_except {A} (body handler : M A) : M A :=
  λ w, match body w with
       | (Return a, w') => (Return a, w')
       | (Raise _, w') => handler w'
       end.

(** [@ndb.transactional], one request at a time: the body runs once, and the
    writes of a body that raises are dropped. *)
Definition transactional {A} (body : M A) : M A :=
  λ w, match body w with
       | (Return a, w') => (Return a, w')
       | (Raise e, _) => (Raise e, w)
       end.

Definition get_current_user : M (option User) :=
  λ w, (Return (current_user w), w).

(** [@login_required] *)
Definition login_required {A} (f : M A) : M A :=
  let! user := get_current_user in
  match user with
  | None => raise (UnauthorizedException "Authorization required")
  | Some _ => f
  end.

(** [ndb.Key(urlsafe=k).get()] *)
Definition Key_get (k : string) : M (option Entity) :=
  λ w, (Return (datastore w !! k), w).

Definition Entity_put (k : string) (e : Entity) : M unit :=
  λ w, (Return tt,
        {| datastore := <[k := e]> (datastore w); profiles := profiles w;
           memcache := memcache w; current_user := current_user w |}).

(** [ndb.Key(Profile, user_id).get()] *)
Definition Profile_get (uid : string) : M (option Profile) :=
  λ w, (Return (profiles w !! uid), w).

Definition Profile_put (uid : string) (p : Profile) : M unit :=
  λ w, (Return tt,
        {| datastore := datastore w; profiles := <[uid := p]> (profiles w);
           memcache := memcache w; current_user := current_user w |}).

Definition memcache_set (k v : string) : M unit :=
  λ w, (Return tt,
        {| datastore := datastore w; profiles := profiles w;
           memcache := <[k := v]> (memcache w);
           current_user := current_user w |}).

(** [conf.seatsAvailable] read and written on whatever entity the key gave. *)
Definition getattr_seatsAvailable (e : Entity) : M Z :=
  match e with
  | EConference c => ret (seatsAvailable c)
  | _ => raise (AttributeError "seatsAvailable")
  end.

Definition setattr_seatsAvailable (e : Entity) (n : Z) : Entity :=
  match e with
  | EConference c =>
      EConference
        {| Conference_name := Conference_name c; city := city c;
           topics := topics c; month := month c;
           maxAttendees := maxAttendees c; seatsAvailable := n;
           organizerUserId := organizerUserId c |}
  | _ => e
  end.

Definition set_conferenceKeysToAttend (p : Profile) (l : list string) : Profile :=
  {| displayName := displayName p; mainEmail := mainEmail p;
     teeShirtSize := teeShirtSize p; conferenceKeysToAttend := l;
     sessionKeysOnWishlist := sessionKeysOnWishlist p |}.

Definition set_sessionKeysOnWishlist (p : Profile) (l : list string) : Profile :=
  {| displayName := displayName p; mainEmail := mainEmail p;
     teeShirtSize := teeShirtSize p;
     conferenceKeysToAttend := conferenceKeysToAttend p;
     sessionKeysOnWishlist := l |}.

(** ** Registration ([_getProfileFromUser], [_conferenceRegistration]) *)

(** The [Profile(...)] a first access creates; the two repeated properties
    start empty. *)
Definition fresh_profile (user : User) : Profile :=
  {| displayName := nickname user; mainEmail := email user;
     teeShirtSize := "NOT_SPECIFIED"; conferenceKeysToAttend := [];
     sessionKeysOnWishlist := [] |}.

(** Returns the profile together with the user id its key is built from. *)
Definition _getProfileFromUser : M (string * Profile) :=
  login_required (
    let! user := get_current_user in
    match user with
    | None => raise (AttributeError "nickname")
    | Some user =>
        let p_key := user_id user in
        let! profile := Profile_get p_key in
        match profile with
        | Some profile => ret (p_key, profile)
        | None =>
            let profile := fresh_profile user in
            Profile_put p_key profile ;;;
            ret (p_key, profile)
        end
    end).

Definition _conferenceRegistration (wsck : string) (reg : bool)
    : M BooleanMessage :=
  transactional (
    let! (p_key, prof) := _getProfileFromUser in
    let! conf := Key_get wsck in
    match conf with
    | None => raise (NotFoundException ("No conference found with key: " +:+ wsck))
    | Some conf =>
        let! (retval, prof, conf) :=
          (if reg then
             if py_in wsck (conferenceKeysToAttend prof) then
               raise (ConflictException
                        "You have already registered for this conference")
             else
               let! seats := getattr_seatsAvailable conf in
               if seats <=? 0 then
                 raise (ConflictException "There are no seats available.")
               else
                 ret (true,
                      set_conferenceKeysToAttend prof
                        (conferenceKeysToAttend prof ++ [wsck]),
                      setattr_seatsAvailable conf (seats - 1))
           else
             if py_in wsck (conferenceKeysToAttend prof) then
               let prof :=
                 set_conferenceKeysToAttend prof
                   (list_remove wsck (conferenceKeysToAttend prof)) in
               let! seats := getattr_seatsAvailable conf in
               ret (true, prof, setattr_seatsAvailable conf (seats + 1))
             else ret (false, prof, conf)) in
        Profile_put p_key prof ;;;
        Entity_put wsck conf ;;;
        ret {| data := retval |}
    end).

Definition registerForConference (websafeConferenceKey : string)
    : M BooleanMessage :=
  _conferenceRegistration websafeConferenceKey true.

Definition unregisterFromConference (websafeConferenceKey : string)
    : M BooleanMessage :=
  _conferenceRegistration websafeConferenceKey false.

(** ** Wishlist *)

Definition addSessionToWishlist (websafeSessionKey : string)
    : M BooleanMessage :=
  login_required (transactional (
    let! (p_key, prof) := _getProfileFromUser in
    let! session := Key_get websafeSessionKey in
    match session with
    | None =>
        raise (NotFoundException
                 ("No session found with key: " +:+ websafeSessionKey))
    | Some _ =>
        let! result :=
          try_except
            (if py_in websafeSessionKey (sessionKeysOnWishlist prof) then
               raise (ConflictException
                        "You already have this in your wishlist")
             else
               Profile_put p_key
                 (set_sessionKeysOnWishlist prof
                    (sessionKeysOnWishlist prof ++ [websafeSessionKey])) ;;;
               ret true)
            (ret false) in
        ret {| data := result |}
    end)).

Definition deleteSessionFromWishlist (websafeSessionKey : string)
    : M BooleanMessage :=
  login_required (transactional (
    let! (p_key, prof) := _getProfileFromUser in
    let! session := Key_get websafeSessionKey in
    match session with
    | None =>
        raise (NotFoundException
                 ("No session found with key: " +:+ websafeSessionKey))
    | Some _ =>
        let! result :=
          try_except
            (if py_in websafeSessionKey (sessionKeysOnWishlist prof) then
               Profile_put p_key
                 (set_sessionKeysOnWishlist prof
                    (list_remove websafeSessionKey
                       (sessionKeysOnWishlist prof))) ;;;
               ret true
             else
               raise (NotFoundException
                        ("No session found in wishlist with key: "
                         +:+ websafeSessionKey)))
            (ret false) in
        ret {| data := result |}
    end)).

(** ** The featured-speaker task ([_updateSpeaker], the task handler) *)

(** An entity a query yields comes with its key. *)
Definition session_matches (sk wck : string) (kv : string * Entity)
    : option (string * Session) :=
  match kv.2 with
  | ESession s =>
      if (bool_decide (speakerKey s = sk)
          && bool_decide (websafeConferenceKey s = wck))%bool
      then Some (kv.1, s) else None
  | _ => None
  end.

(** [Session.query(ndb.AND(Session.speakerKey == sk,
    Session.websafeConferenceKey == wck))].  The entities found are the
    datastore's; the order in which the model lists them is the map's own
    and stands for the datastore's key order, which the model does not fix:
    what is stated about the names joined from the result is stated up to
    their order. *)
Definition Session_query_fetch (ds : gmap string Entity) (sk wck : string)
    : list (string * Session) :=
  omap (session_matches sk wck) (map_to_list ds).

Definition Session_query (sk wck : string) : M (list (string * Session)) :=
  λ w, (Return (Session_query_fetch (datastore w) sk wck), w).

Definition _updateSpeaker (request : Task) : M bool :=
  try_except
    (let speakerKey := task_speakerKey request in
     let! speaker := Key_get speakerKey in
     match speaker with
     | None => ret false
     | Some (ESpeaker sp) =>
         let sessions := (sessions sp ++ [task_sessionName request])%list in
         Entity_put speakerKey
           (ESpeaker {| Speaker_name := Speaker_name sp; sessions := sessions;
                        sessions_count := Z.of_nat (length sessions) |}) ;;;
         ret true
     | Some _ => raise (AttributeError "sessions")
     end)
    (ret false).

Definition SetFeaturedSpeakerHandler_post (request : Task) : M unit :=
  let! sessions :=
    Session_query (task_speakerKey request)
      (task_websafeConferenceKey request) in
  (if 1 <? Z.of_nat (length sessions) then
     memcache_set MEMCACHE_FEATURED_SPEAKER
       (task_speakerName request +:+ " is Featured Speaker with sessions "
        +:+ String.concat ", "
              ((λ session, Session_name session.2) <$> sessions))
   else ret tt) ;;;
  let! _ := _updateSpeaker request in
  ret tt.

(** ** Announcements and the two cache read paths
       ([_cacheAnnouncement], [getAnnouncement], [getFeaturedSpeaker],
       [SetAnnouncementHandler]) *)

Definition MEMCACHE_ANNOUNCEMENTS_KEY : string := "RECENT_ANNOUNCEMENTS".

(** [ANNOUNCEMENT_TPL % s] *)
Definition ANNOUNCEMENT_TPL (s : string) : string :=
  "Last chance to attend! The following conferences are nearly sold out: "
  +:+ s.

(** Modelled from the spec: [models.StringMessage], a reply carrying one
    string. *)
Record StringMessage := { StringMessage_data : string }.

Definition memcache_get (k : string) : M (option string) :=
  λ w, (Return (memcache w !! k), w).

Definition memcache_delete (k : string) : M unit :=
  λ w, (Return tt,
        {| datastore := datastore w; profiles := profiles w;
           memcache := delete k (memcache w);
           current_user := current_user w |}).

(** [v or ""] on what [memcache.get] returned. *)
Definition or_empty (v : option string) : string :=
  match v with
  | Some s => if bool_decide (s = EmptyString) then EmptyString else s
  | None => EmptyString
  end.

Definition nearly_sold_out (kv : string * Entity)
    : option (string * Conference) :=
  match kv.2 with
  | EConference c =>
      if ((seatsAvailable c <=? 5) && (0 <? seatsAvailable c))%bool
      then Some (kv.1, c) else None
  | _ => None
  end.

(** [Conference.query(ndb.AND(Conference.seatsAvailable <= 5,
    Conference.seatsAvailable > 0)).fetch(projection=[Conference.name])].
    The entities found are the datastore's; the order in which the model
    lists them is the map's own and stands for the datastore's index order
    (ascending [seatsAvailable]), which the model does not fix: what is
    stated about the names joined from the result is stated up to their
    order. *)
Definition Conference_query_fetch (ds : gmap string Entity)
    : list (string * Conference) :=
  omap nearly_sold_out (map_to_list ds).

Definition Conference_query_nearly_sold_out : M (list (string * Conference)) :=
  λ w, (Return (Conference_query_fetch (datastore w)), w).

Definition _cacheAnnouncement : M string :=
  let! confs := Conference_query_nearly_sold_out in
  match confs with
  | _ :: _ =>
      let announcement :=
        ANNOUNCEMENT_TPL
          (String.concat ", " ((λ conf, Conference_name conf.2) <$> confs)) in
      memcache_set MEMCACHE_ANNOUNCEMENTS_KEY announcement ;;;
      ret announcement
  | [] =>
      let announcement := EmptyString in
      memcache_delete MEMCACHE_ANNOUNCEMENTS_KEY ;;;
      ret announcement
  end.

Definition getAnnouncement : M StringMessage :=
  let! v := memcache_get MEMCACHE_ANNOUNCEMENTS_KEY in
  ret {| StringMessage_data := or_empty v |}.

Definition getFeaturedSpeaker : M StringMessage :=
  let! v := memcache_get MEMCACHE_FEATURED_SPEAKER in
  ret {| StringMessage_data := or_empty v |}.

(** [SetAnnouncementHandler.get]: the cron job; the reply is the status. *)
Definition SetAnnouncementHandler_get : M Z :=
  _cacheAnnouncement ;;;
  ret 204.

(** ** Vocabulary of the properties *)

(** A filter that passes the two dictionary look-ups of [_formatFilters]. *)
Definition valid_filter (f : ConferenceQueryForm) : Prop :=
  is_Some (FIELDS !! field f) ∧ is_Some (OPERATORS !! operator f).

#[global] Instance valid_filter_dec (f : ConferenceQueryForm) :
  Decision (valid_filter f).
Proof. unfold valid_filter. apply _. Defined.

(** [f] resolves to field [fld] and bears an operator other than ["="]. *)
Definition inequality_on (f : ConferenceQueryForm) (fld : string) : Prop :=
  FIELDS !! field f = Some fld ∧
  ∃ op, OPERATORS !! operator f = Some op ∧ op ≠ "=".

Definition two_inequality_fields (fs : list ConferenceQueryForm) : Prop :=
  ∃ f1 f2 fld1 fld2,
    f1 ∈ fs ∧ f2 ∈ fs ∧ inequality_on f1 fld1 ∧ inequality_on f2 fld2 ∧
    fld1 ≠ fld2.

(** [f] is a filter on [month] or [maxAttendees]. *)
Definition numeric_filter (f : ConferenceQueryForm) : Prop :=
  FIELDS !! field f = Some "month" ∨ FIELDS !! field f = Some "maxAttendees".

(** The conference keys the profile of [uid] holds; a user without a stored
    profile gets a fresh one with an empty list on first access. *)
Definition attending (w : World) (uid : string) : list string :=
  match profiles w !! uid with
  | Some p => conferenceKeysToAttend p
  | None => []
  end.

Definition wishlist (w : World) (uid : string) : list string :=
  match profiles w !! uid with
  | Some p => sessionKeysOnWishlist p
  | None => []
  end.

(** The profile [_getProfileFromUser] hands to the handler of user [u]. *)
Definition profile_of (w : World) (u : User) : Profile :=
  default (fresh_profile u) (profiles w !! user_id u).

(** The world once the profile of [u] and the entity under [k] are put. *)
Definition put_both (w : World) (u : User) (p : Profile) (k : string)
    (e : Entity) : World :=
  {| datastore := <[k := e]> (datastore w);
     profiles := <[user_id u := p]> (profiles w);
     memcache := memcache w; current_user := current_user w |}.

(** The world once the profile of [u] is put. *)
Definition put_profile (w : World) (u : User) (p : Profile) : World :=
  {| datastore := datastore w;
     profiles := <[user_id u := p]> (profiles w);
     memcache := memcache w; current_user := current_user w |}.

(** The announcement the task handler composes. *)
Definition announcement (speakerName : string) (names : list string) : string :=
  speakerName +:+ " is Featured Speaker with sessions "
  +:+ String.concat ", " names.

(** The speaker entity after one run of [_updateSpeaker] for [n]. *)
Definition with_session (sp : Speaker) (n : string) : Speaker :=
  {| Speaker_name := Speaker_name sp; sessions := sessions sp ++ [n];
     sessions_count := Z.of_nat (length (sessions sp ++ [n])) |}.

(** The sessions a task is about, as the handler's query finds them. *)
Definition found_sessions (request : Task) (w : World)
    : list (string * Session) :=
  Session_query_fetch (datastore w) (task_speakerKey request)
    (task_websafeConferenceKey request).

(** The world after the publication step of the task handler. *)
Definition after_publish (request : Task) (w : World) : World :=
  {| datastore := datastore w; profiles := profiles w;
     memcache :=
       if bool_decide (1 < length (found_sessions request w))%nat
       then <[MEMCACHE_FEATURED_SPEAKER :=
                announcement (task_speakerName request)
                  ((λ session, Session_name session.2)
                     <$> found_sessions request w)]> (memcache w)
       else memcache w;
     current_user := current_user w |}.

(** The world after [_updateSpeaker]. *)
Definition after_update (request : Task) (w : World) : World :=
  match datastore w !! task_speakerKey request with
  | Some (ESpeaker sp) =>
      {| datastore :=
           <[task_speakerKey request :=
               ESpeaker (with_session sp (task_sessionName request))]>
             (datastore w);
         profiles := profiles w; memcache := memcache w;
         current_user := current_user w |}
  | _ => w
  end.

(** [d] is the dictionary [_formatFilters] builds from [f]. *)
Definition resolves (f : ConferenceQueryForm) (d : filtr) : Prop :=
  FIELDS !! field f = Some (filtr_field d) ∧
  OPERATORS !! operator f = Some (filtr_operator d) ∧
  filtr_value d = value f.

(** [int()] in [_getQuery] accepts the value of [d]. *)
Definition coercible (d : filtr) : Prop :=
  filtr_field d ∈ ["month"; "maxAttendees"] →
  is_Some (int_literal (filtr_value d)).

Definition filter_of (fld op v : string) : ConferenceQueryForm :=
  {| field := fld; operator := op; value := v |}.

Definition inequality_error : Exc :=
  BadRequestException "Inequality filter is allowed on only one field.".

Definition invalid_filter_error : Exc :=
  BadRequestException "Filter contains invalid field or operator.".

(** ** Vocabulary of the further properties *)

#[global] Instance numeric_filter_dec (f : ConferenceQueryForm) :
  Decision (numeric_filter f).
Proof. unfold numeric_filter. apply _. Defined.

(** [n] is the constraint compiled from [f]: the resolved field and operator,
    and the value read as an integer on [month] and [maxAttendees], kept as
    the string it came as on the other fields. *)
Definition compiles_to (f : ConferenceQueryForm) (n : FilterNode) : Prop :=
  FIELDS !! field f = Some (node_name n) ∧
  OPERATORS !! operator f = Some (node_opsymbol n) ∧
  Some (node_value n) =
    (if decide (numeric_filter f) then PyInt <$> int_literal (value f)
     else Some (PyStr (value f))).

(** The values [int()] will be asked to read are integer literals. *)
Definition numeric_values_ok (fs : list ConferenceQueryForm) : Prop :=
  ∀ f, f ∈ fs → numeric_filter f → is_Some (int_literal (value f)).

(** The number of profiles that hold the conference key [k]. *)
Definition registered (w : World) (k : string) : nat :=
  size (filter (λ up : string * Profile, k ∈ conferenceKeysToAttend up.2)
          (profiles w)).

(** Whether a stored profile, if any, holds the key. *)
Definition holds (k : string) (o : option Profile) : nat :=
  match o with
  | Some p => if decide (k ∈ conferenceKeysToAttend p) then 1%nat else 0%nat
  | None => 0%nat
  end.

(** The number of profiles of [m] that hold the key. *)
Definition holders (k : string) (m : gmap string Profile) : nat :=
  size (filter (λ up : string * Profile, k ∈ conferenceKeysToAttend up.2) m).

(** No profile lists a conference twice, and for every stored conference the
    free seats are not negative and add up with the registered users to
    [maxAttendees]. *)
Definition consistent (w : World) : Prop :=
  (∀ uid p, profiles w !! uid = Some p → NoDup (conferenceKeysToAttend p)) ∧
  (∀ k c, datastore w !! k = Some (EConference c) →
          0 ≤ seatsAvailable c ∧
          seatsAvailable c + Z.of_nat (registered w k) = maxAttendees c).

(** The requests of the modelled handlers, and a world serving one for the
    user [who] (nobody, when [None]). *)
Inductive Request :=
  | Register (wsck : string)
  | Unregister (wsck : string)
  | WishlistAdd (wssk : string)
  | WishlistDelete (wssk : string)
  | FeaturedSpeakerTask (t : Task)
  | AnnouncementCron.

Definition as_user (who : option User) (w : World) : World :=
  {| datastore := datastore w; profiles := profiles w;
     memcache := memcache w; current_user := who |}.

Definition serve (w : World) (r : option User * Request) : World :=
  let w := as_user r.1 w in
  match r.2 with
  | Register k => (registerForConference k w).2
  | Unregister k => (unregisterFromConference k w).2
  | WishlistAdd k => (addSessionToWishlist k w).2
  | WishlistDelete k => (deleteSessionFromWishlist k w).2
  | FeaturedSpeakerTask t => (SetFeaturedSpeakerHandler_post t w).2
  | AnnouncementCron => (SetAnnouncementHandler_get w).2
  end.

(** The task delivered [n] times in a row. *)
Fixpoint deliver (n : nat) (request : Task) (w : World) : World :=
  match n with
  | O => w
  | S n => deliver n request (SetFeaturedSpeakerHandler_post request w).2
  end.

(** ** Domains on which the model is exact *)

(** A character [int()] gives no meaning in an integer literal, on any
    reading: ASCII, and neither a digit, a blank, a sign, an underscore nor
    one of the separators 28 to 31. *)
Definition foreign_char (a : ascii) : bool :=
  let n := nat_of_ascii a in
  (Nat.ltb n 128
   && match digit_val a with Some _ => false | None => true end
   && negb (is_space a)
   && negb (Nat.leb 28 n && Nat.leb n 31)
   && negb (Nat.eqb n 43) && negb (Nat.eqb n 45) && negb (Nat.eqb n 95))%bool.

(** A value [int()] surely rejects: it is blank (empty, or ASCII blanks
    only), or it holds a character no integer literal holds. *)
Definition not_an_integer_literal (v : string) : Prop :=
  (∀ a, a ∈ list_ascii_of_string v → is_space a = true) ∨
  ∃ a, a ∈ list_ascii_of_string v ∧ foreign_char a = true.

(** The values on which [int_literal] and [int()] agree: those the model
    reads as an integer, and those [int()] surely rejects. *)
Definition decided_value (v : string) : Prop :=
  is_Some (int_literal v) ∨ not_an_integer_literal v.

(** The key a request carries, if any. *)
Definition request_key (r : Request) : option string :=
  match r with
  | Register k | Unregister k | WishlistAdd k | WishlistDelete k => Some k
  | FeaturedSpeakerTask t => Some (task_speakerKey t)
  | AnnouncementCron => None
  end.

(** The request carries no key, or the key of an entity stored in [w],
    in the spelling it is stored under. *)
Definition addresses_stored (w : World) (r : option User * Request) : Prop :=
  ∀ k, request_key r.2 = Some k → is_Some (datastore w !! k).

(** ** Sample data *)

Definition alice : User :=
  {| user_id := "alice"; nickname := "Alice"; email := "alice@example.com" |}.

Definition sold_out : Conference :=
  {| Conference_name := "RustFest"; city := "Paris"; topics := ["Rust"];
     month := 5; maxAttendees := 1; seatsAvailable := 0;
     organizerUserId := "bob" |}.

Definition open_conference : Conference :=
  {| Conference_name := "PyCon"; city := "London"; topics := ["Python"];
     month := 6; maxAttendees := 2; seatsAvailable := 2;
     organizerUserId := "bob" |}.

Definition intro_session : Session :=
  {| Session_name := "Intro"; typeOfSession := "talk"; speakerKey := "spk";
     websafeConferenceKey := "c1" |}.

Definition deep_session : Session :=
  {| Session_name := "Deep"; typeOfSession := "workshop"; speakerKey := "spk";
     websafeConferenceKey := "c1" |}.

Definition grace : Speaker :=
  {| Speaker_name := "Grace"; sessions := ["Intro"]; sessions_count := 1 |}.

Definition alice_profile : Profile :=
  {| displayName := "Alice"; mainEmail := "alice@example.com";
     teeShirtSize := "NOT_SPECIFIED"; conferenceKeysToAttend := [];
     sessionKeysOnWishlist := ["s1"] |}.

Definition sample_world : World :=
  {| datastore :=
       list_to_map
         [("c0", EConference sold_out); ("c1", EConference open_conference);
          ("s1", ESession intro_session); ("s2", ESession deep_session);
          ("spk", ESpeaker grace)];
     profiles := {[ "alice" := alice_profile ]};
     memcache := ∅;
     current_user := Some alice |}.

Definition sample_task : Task :=
  {| task_speakerKey := "spk"; task_speakerName := "Grace";
     task_sessionName := "Deep"; task_websafeConferenceKey := "c1" |}.

Definition bob : User :=
  {| user_id := "bob"; nickname := "Bob"; email := "bob@example.com" |}.

Definition last_seat : Conference :=
  {| Conference_name := "ElixirConf"; city := "Oslo"; topics := ["Elixir"];
     month := 9; maxAttendees := 1; seatsAvailable := 1;
     organizerUserId := "bob" |}.

(** One conference with a single seat, nobody registered. *)
Definition opening_world : World :=
  {| datastore :=
       list_to_map
         [("c2", EConference last_seat); ("s1", ESession intro_session);
          ("spk", ESpeaker grace)];
     profiles := {[ "alice" := alice_profile ]};
     memcache := ∅;
     current_user := None |}.

Definition opening_requests : list (option User * Request) :=
  [(Some alice, Register "c2"); (Some bob, Register "c2");
   (None, AnnouncementCron); (Some bob, Unregister "c2")].

(** ** Worked examples *)

Example getQuery_ex1 :
  _getQuery [{| field := "CITY"; operator := "EQ"; value := "London" |};
             {| field := "MONTH"; operator := "GT"; value := " 6 " |}]
  = Return {| orders := ["month"; "name"];
              filters := [{| node_name := "city"; node_opsymbol := "=";
                             node_value := PyStr "London" |};
                          {| node_name := "month"; node_opsymbol := ">";
                             node_value := PyInt 6 |}] |}.
Proof. vm_compute. reflexivity. Qed.

Example int_literal_ex :
  int_literal " 12 " = Some 12 ∧ int_literal "-7" = Some (-7) ∧
  int_literal "June" = None ∧ int_literal "+" = None ∧
  int_literal "1 2" = None ∧ int_literal EmptyString = None.
Proof. vm_compute. repeat split. Qed.

Example register_ex :
  (registerForConference "c1" sample_world).1 = Return {| data := true |} ∧
  datastore (registerForConference "c1" sample_world).2 !! "c1"
  = Some (EConference
            {| Conference_name := "PyCon"; city := "London";
               topics := ["Python"]; month := 6; maxAttendees := 2;
               seatsAvailable := 1; organizerUserId := "bob" |}) ∧
  attending (registerForConference "c1" sample_world).2 "alice" = ["c1"].
Proof. vm_compute. repeat split. Qed.

Example register_not_a_conference_ex :
  registerForConference "s1" sample_world
  = (Raise (AttributeError "seatsAvailable"), sample_world).
Proof. vm_compute. reflexivity. Qed.

(** ** The filter compiler *)

Section FilterCompiler.

Implicit Types (f : ConferenceQueryForm) (fs : list ConferenceQueryForm).
Implicit Types (g : option string) (acc ds : list filtr).

Lemma FIELDS_values k v :
  FIELDS !! k = Some v → v ∈ ["city"; "topics"; "month"; "maxAttendees"].
Proof.
  intros H. apply elem_of_list_to_map_2 in H.
  rewrite !elem_of_cons, elem_of_nil in H. rewrite !elem_of_cons.
  destruct H as [[= -> ->]|[[= -> ->]|[[= -> ->]|[[= -> ->]|[]]]]]; auto.
Qed.

Lemma FIELDS_truthy k v : FIELDS !! k = Some v → truthy (Some v) = true.
Proof.
  intros H%FIELDS_values. unfold truthy.
  rewrite negb_true_iff, bool_decide_eq_false. intros ->.
  rewrite !elem_of_cons, elem_of_nil in H. intuition discriminate.
Qed.

(** What the loop does with one filter. *)
Lemma loop_invalid f fs g acc :
  ¬ valid_filter f →
  _formatFilters_loop (f :: fs) g acc = Raise invalid_filter_error.
Proof.
  intros Hv. simpl.
  destruct (FIELDS !! field f) eqn:Hf; [|done].
  destruct (OPERATORS !! operator f) eqn:Ho; [|done].
  destruct Hv. split; eauto.
Qed.

Lemma loop_equality f fs g acc fld :
  FIELDS !! field f = Some fld →
  OPERATORS !! operator f = Some "=" →
  _formatFilters_loop (f :: fs) g acc =
  _formatFilters_loop fs g
    (acc ++ [{| filtr_field := fld; filtr_operator := "=";
                filtr_value := value f |}]).
Proof. intros Hf Ho. simpl. rewrite Hf, Ho. done. Qed.

Lemma loop_inequality_clash f fs g acc fld :
  inequality_on f fld → truthy g = true → g ≠ Some fld →
  _formatFilters_loop (f :: fs) g acc = Raise inequality_error.
Proof.
  intros [Hf (op & Ho & Hop)] Hg Hne. simpl. rewrite Hf, Ho.
  rewrite (bool_decide_eq_true_2 _ Hop), Hg.
  by rewrite (bool_decide_eq_true_2 _ Hne).
Qed.

Lemma loop_inequality_track f fs g acc fld op :
  FIELDS !! field f = Some fld →
  OPERATORS !! operator f = Some op → op ≠ "=" →
  truthy g = false ∨ g = Some fld →
  _formatFilters_loop (f :: fs) g acc =
  _formatFilters_loop fs (Some fld)
    (acc ++ [{| filtr_field := fld; filtr_operator := op;
                filtr_value := value f |}]).
Proof.
  intros Hf Ho Hop Hg. simpl. rewrite Hf, Ho.
  rewrite (bool_decide_eq_true_2 _ Hop).
  destruct Hg as [->| ->]; [done|].
  rewrite andb_comm. by rewrite bool_decide_eq_false_2 by (intros H; by apply H).
Qed.

Lemma valid_filter_cases f :
  valid_filter f →
  ∃ fld op, FIELDS !! field f = Some fld ∧ OPERATORS !! operator f = Some op ∧
            (op = "=" ∨ inequality_on f fld).
Proof.
  intros [[fld Hf] [op Ho]]. exists fld, op. split_and!; [done..|].
  destruct (decide (op = "=")); [by left|right].
  split; [done|]. by exists op.
Qed.

Lemma inequality_on_fun f fld fld' :
  inequality_on f fld → inequality_on f fld' → fld = fld'.
Proof. intros [H _] [H' _]. congruence. Qed.

Lemma inequality_on_not_eq f fld :
  inequality_on f fld → OPERATORS !! operator f ≠ Some "=".
Proof. intros [_ (op & Ho & Hop)]. congruence. Qed.

(** Once a field is tracked, a later inequality on another field stops the
    loop, provided the filters before it are valid. *)
Lemma loop_clash_later pre suf fld acc :
  Forall valid_filter pre →
  truthy (Some fld) = true →
  (∃ f fld', f ∈ pre ∧ inequality_on f fld' ∧ fld' ≠ fld) →
  _formatFilters_loop (pre ++ suf) (Some fld) acc = Raise inequality_error.
Proof.
  intros Hv Ht. revert acc.
  induction Hv as [|f pre Hf Hv IH]; intros acc (f' & fld' & Hin & Hineq & Hne).
  { by apply elem_of_nil in Hin. }
  rewrite <- app_comm_cons.
  destruct (valid_filter_cases f Hf) as (fld0 & op & Hfld & Hop & [->|Hi]).
  - rewrite (loop_equality _ _ _ _ _ Hfld Hop). apply IH.
    exists f', fld'. split_and!; [|done..].
    apply elem_of_cons in Hin as [->|]; [|done].
    by apply inequality_on_not_eq in Hineq.
  - destruct (decide (fld0 = fld)) as [->|Hd].
    + destruct Hi as [_ (op' & Hop' & Hne')].
      rewrite (loop_inequality_track _ _ _ _ _ _ Hfld Hop') by auto.
      apply IH. exists f', fld'. split_and!; [|done..].
      apply elem_of_cons in Hin as [->|]; [|done].
      destruct Hineq as [? _]. congruence.
    + apply (loop_inequality_clash _ _ _ _ fld0); [done..|congruence].
Qed.

Lemma two_fields_skip_equality f fs :
  OPERATORS !! operator f = Some "=" →
  two_inequality_fields (f :: fs) → two_inequality_fields fs.
Proof.
  intros Hop (f1 & f2 & fld1 & fld2 & H1 & H2 & Hi1 & Hi2 & Hne).
  exists f1, f2, fld1, fld2. split_and!; [| |done..].
  - apply elem_of_cons in H1 as [->|]; [|done].
    by apply inequality_on_not_eq in Hi1.
  - apply elem_of_cons in H2 as [->|]; [|done].
    by apply inequality_on_not_eq in Hi2.
Qed.

Lemma two_fields_other f fs fld :
  FIELDS !! field f = Some fld →
  two_inequality_fields (f :: fs) →
  ∃ f' fld', f' ∈ fs ∧ inequality_on f' fld' ∧ fld' ≠ fld.
Proof.
  intros Hfld (f1 & f2 & fld1 & fld2 & H1 & H2 & Hi1 & Hi2 & Hne).
  destruct (decide (fld1 = fld)) as [->|Hd].
  - exists f2, fld2. split_and!; [|done|congruence].
    apply elem_of_cons in H2 as [->|]; [|done].
    destruct Hi2 as [? _]. congruence.
  - exists f1, fld1. split_and!; [|done..].
    apply elem_of_cons in H1 as [->|]; [|done].
    destruct Hi1 as [? _]. congruence.
Qed.

Lemma loop_two_fields pre suf acc :
  Forall valid_filter pre → two_inequality_fields pre →
  _formatFilters_loop (pre ++ suf) None acc = Raise inequality_error.
Proof.
  intros Hv. revert acc.
  induction Hv as [|f pre Hf Hv IH]; intros acc Htwo.
  { destruct Htwo as (f1 & _ & _ & _ & []%elem_of_nil & _). }
  rewrite <- app_comm_cons.
  destruct (valid_filter_cases f Hf) as (fld0 & op & Hfld & Hop & [->|Hi]).
  - rewrite (loop_equality _ _ _ _ _ Hfld Hop). apply IH.
    by eapply two_fields_skip_equality.
  - destruct Hi as [_ (op' & Hop' & Hne')].
    rewrite (loop_inequality_track _ _ _ _ _ _ Hfld Hop') by auto.
    apply loop_clash_later; [done|by eapply FIELDS_truthy|].
    by eapply two_fields_other.
Qed.

(** Without any assumption on validity the loop still never returns. *)
Lemma loop_never_accepts fs g acc :
  two_inequality_fields fs ∨
  (truthy g = true ∧ ∃ f fld, f ∈ fs ∧ inequality_on f fld ∧ g ≠ Some fld) →
  _formatFilters_loop fs g acc = Raise inequality_error ∨
  _formatFilters_loop fs g acc = Raise invalid_filter_error.
Proof.
  revert g acc. induction fs as [|f fs IH]; intros g acc H.
  { destruct H as [(f1 & _ & _ & _ & []%elem_of_nil & _)
                  |(_ & f & _ & []%elem_of_nil & _)]. }
  destruct (decide (valid_filter f)) as [Hf|Hf];
    [|right; by apply loop_invalid].
  destruct (valid_filter_cases f Hf) as (fld0 & op & Hfld & Hop & [->|Hi]).
  - rewrite (loop_equality _ _ _ _ _ Hfld Hop). apply IH.
    destruct H as [Htwo|(Ht & f' & fld' & Hin & Hi' & Hne)].
    + left. by eapply two_fields_skip_equality.
    + right. split; [done|]. exists f', fld'. split_and!; [|done..].
      apply elem_of_cons in Hin as [->|]; [|done].
      by apply inequality_on_not_eq in Hi'.
  - destruct (truthy g) eqn:Ht.
    + destruct (decide (g = Some fld0)) as [->|Hg].
      * pose proof Hi as [_ (op' & Hop' & Hne')].
        rewrite (loop_inequality_track _ _ _ _ _ _ Hfld Hop') by auto.
        apply IH. right. split; [done|].
        destruct H as [Htwo|(_ & f' & fld' & Hin & Hi' & Hne)].
        -- destruct (two_fields_other _ _ _ Hfld Htwo)
             as (f' & fld' & Hin & Hi' & Hne).
           exists f', fld'. split_and!; [done..|congruence].
        -- exists f', fld'. split_and!; [|done..].
           apply elem_of_cons in Hin as [->|]; [|done].
           destruct Hi' as [? _]. congruence.
      * left. by apply (loop_inequality_clash _ _ _ _ fld0).
    + pose proof Hi as [_ (op' & Hop' & Hne')].
      rewrite (loop_inequality_track _ _ _ _ _ _ Hfld Hop') by auto.
      apply IH. right. split; [by eapply FIELDS_truthy|].
      destruct H as [Htwo|(? & _)]; [|congruence].
      destruct (two_fields_other _ _ _ Hfld Htwo)
        as (f' & fld' & Hin & Hi' & Hne).
      exists f', fld'. split_and!; [done..|congruence].
Qed.

(** A list with no clash is accepted, and the field handed back is the
    one bearing the inequalities, if any. *)
Lemma loop_accepts fs g acc :
  Forall valid_filter fs →
  (∀ f fld, f ∈ fs → inequality_on f fld → truthy g = false ∨ g = Some fld) →
  (∀ f1 f2 fld1 fld2, f1 ∈ fs → f2 ∈ fs →
     inequality_on f1 fld1 → inequality_on f2 fld2 → fld1 = fld2) →
  ∃ g' ds,
    _formatFilters_loop fs g acc = Return (g', acc ++ ds) ∧
    Forall2 resolves fs ds ∧
    (g' = g ∨ ∃ f fld, f ∈ fs ∧ inequality_on f fld ∧ g' = Some fld) ∧
    (∀ f fld, f ∈ fs → inequality_on f fld → g' = Some fld).
Proof.
  intros Hv. revert g acc.
  induction Hv as [|f fs Hf Hv IH]; intros g acc Hg Hpair.
  { exists g, []. rewrite app_nil_r. split_and!; [done|constructor|by left|].
    intros ? ? []%elem_of_nil. }
  destruct (valid_filter_cases f Hf) as (fld0 & op & Hfld & Hop & [->|Hi]).
  - rewrite (loop_equality _ _ _ _ _ Hfld Hop).
    destruct (IH g (acc ++ [{| filtr_field := fld0; filtr_operator := "=";
                              filtr_value := value f |}]))
      as (g' & ds & Hrun & Hres & Hor & Hall).
    { intros f' fld' Hin. apply Hg. by right. }
    { intros f1 f2 fld1 fld2 H1 H2. apply Hpair; by right. }
    eexists g', (_ :: ds). rewrite Hrun, <- app_assoc. split_and!; [done| | |].
    + constructor; [done|done].
    + destruct Hor as [->|(f' & fld' & Hin & Hi & ->)]; [by left|right].
      exists f', fld'. split_and!; [by right|done..].
    + intros f' fld' [->|Hin]%elem_of_cons Hi; [|by eapply Hall].
      by apply inequality_on_not_eq in Hi.
  - pose proof Hi as [_ (op' & Hop' & Hne')].
    assert (op' = op) as -> by congruence.
    rewrite (loop_inequality_track _ _ _ _ _ _ Hfld Hop') by
      (done || (apply (Hg f); [by left|done])).
    destruct (IH (Some fld0)
                (acc ++ [{| filtr_field := fld0; filtr_operator := op;
                            filtr_value := value f |}]))
      as (g' & ds & Hrun & Hres & Hor & Hall).
    { intros f' fld' Hin Hi'. right. f_equal.
      apply (Hpair f f'); [by left|by right|done..]. }
    { intros f1 f2 fld1 fld2 H1 H2. apply Hpair; by right. }
    assert (g' = Some fld0) as ->.
    { destruct Hor as [->|(f' & fld' & Hin & Hi' & ->)]; [done|].
      f_equal. apply (Hpair f' f); [by right|by left|done..]. }
    eexists (Some fld0), (_ :: ds). rewrite Hrun, <- app_assoc.
    split_and!; [done| | |].
    + constructor; [done|done].
    + right. exists f, fld0. split_and!; [by left|done..].
    + intros f' fld' Hin Hi'. f_equal.
      apply (Hpair f f'); [by left|done..].
Qed.

Lemma at_most_one_field fs f1 f2 fld1 fld2 :
  ¬ two_inequality_fields fs →
  f1 ∈ fs → f2 ∈ fs → inequality_on f1 fld1 → inequality_on f2 fld2 →
  fld1 = fld2.
Proof.
  intros Hno H1 H2 Hi1 Hi2. destruct (decide (fld1 = fld2)); [done|].
  destruct Hno. by exists f1, f2, fld1, fld2.
Qed.

Lemma _formatFilters_accepts fs :
  Forall valid_filter fs → ¬ two_inequality_fields fs →
  ∃ g ds,
    _formatFilters fs = Return (g, ds) ∧ Forall2 resolves fs ds ∧
    (g = None ∨ ∃ f fld, f ∈ fs ∧ inequality_on f fld ∧ g = Some fld) ∧
    (∀ f fld, f ∈ fs → inequality_on f fld → g = Some fld).
Proof.
  intros Hv Hno. unfold _formatFilters.
  destruct (loop_accepts fs None [] Hv) as (g & ds & Hrun & H); [by left| |].
  { intros f1 f2 fld1 fld2. by apply at_most_one_field. }
  by exists g, ds.
Qed.

(** The second loop: it keeps the sort keys and stops at the first value
    [int()] rejects. *)

Lemma _getQuery_loop_orders ds q :
  Forall coercible ds →
  ∃ q', _getQuery_loop ds q = Return q' ∧ orders q' = orders q ∧
        length (filters q') = (length (filters q) + length ds)%nat.
Proof.
  intros Hc. revert q. induction Hc as [|d ds Hd Hc IH]; intros q.
  { exists q. simpl. split_and!; [done..|lia]. }
  simpl. unfold coercible in Hd. case_bool_decide as Hnum.
  - destruct (Hd Hnum) as [n Hn]. unfold py_int. rewrite Hn.
    edestruct IH as (q' & Hrun & Hord & Hlen). exists q'.
    rewrite Hrun, Hord, Hlen. simpl. rewrite length_app. simpl.
    split_and!; [done..|lia].
  - edestruct IH as (q' & Hrun & Hord & Hlen). exists q'.
    rewrite Hrun, Hord, Hlen. simpl. rewrite length_app. simpl.
    split_and!; [done..|lia].
Qed.

Lemma _getQuery_loop_rejects ds q d :
  d ∈ ds → filtr_field d ∈ ["month"; "maxAttendees"] →
  int_literal (filtr_value d) = None →
  ∃ lit, _getQuery_loop ds q = Raise (ValueError lit) ∧ int_literal lit = None.
Proof.
  intros Hin Hnum Hbad. revert q.
  induction ds as [|d' ds IH]; intros q; [by apply elem_of_nil in Hin|].
  simpl. case_bool_decide as Hnum'.
  - unfold py_int. destruct (int_literal (filtr_value d')) eqn:Hlit.
    + apply elem_of_cons in Hin as [->|Hin]; [congruence|]. by apply IH.
    + by exists (filtr_value d').
  - apply elem_of_cons in Hin as [->|Hin]; [done|]. by apply IH.
Qed.

Lemma resolves_numeric f d :
  resolves f d → filtr_field d ∈ ["month"; "maxAttendees"] ↔ numeric_filter f.
Proof.
  intros (Hf & _ & _). unfold numeric_filter.
  rewrite Hf, !elem_of_cons, elem_of_nil.
  split; [intros [->|[->|[]]]|intros [[= ->]|[= ->]]]; auto.
Qed.

End FilterCompiler.

Lemma inequality_on_intro f fld op :
  FIELDS !! field f = Some fld → OPERATORS !! operator f = Some op →
  op ≠ "=" → inequality_on f fld.
Proof. intros ? ? ?. split; [done|]. by exists op. Qed.

(** Whatever else the list holds, non-equality operators on two fields keep
    [_getQuery] from returning a query. *)
Lemma two_inequality_fields_never_compile (fs : list ConferenceQueryForm) :
  two_inequality_fields fs →
  _getQuery fs = Raise inequality_error ∨
  _getQuery fs = Raise invalid_filter_error.
Proof.
  intros Htwo. unfold _getQuery, _formatFilters.
  destruct (loop_never_accepts fs None [] (or_introl Htwo)) as [-> | ->];
    [by left|by right].
Qed.

Lemma two_inequality_fields_Permutation (fs fs' : list ConferenceQueryForm) :
  fs' ≡ₚ fs → two_inequality_fields fs → two_inequality_fields fs'.
Proof.
  intros Hp (f1 & f2 & fld1 & fld2 & H1 & H2 & H).
  exists f1, f2, fld1, fld2. by rewrite !Hp.
Qed.

(** C3.  A filter specification names a field and an operator of the two
    enumerations ([valid_filter]).  For every list of such filters that
    holds non-equality operators on two distinct fields, and for every
    order in which its filters may come, [_formatFilters] and with it
    [_getQuery] raise the [BadRequestException] "Inequality filter is
    allowed on only one field.": no query is produced. *)
Theorem two_inequality_fields_rejected (fs fs' : list ConferenceQueryForm) :
  Forall valid_filter fs →
  two_inequality_fields fs →
  fs' ≡ₚ fs →
  _formatFilters fs' = Raise inequality_error ∧
  _getQuery fs' = Raise inequality_error.
Proof.
  intros Hv Htwo Hp.
  assert (Forall valid_filter fs') as Hv' by by rewrite Hp.
  pose proof (two_inequality_fields_Permutation fs fs' Hp Htwo) as Htwo'.
  pose proof (loop_two_fields fs' [] [] Hv' Htwo') as Hrun.
  rewrite app_nil_r in Hrun.
  unfold _getQuery, _formatFilters. by rewrite Hrun.
Qed.

Lemma two_inequality_fields_sample :
  two_inequality_fields
    [filter_of "MONTH" "LT" "6"; filter_of "CITY" "EQ" "Paris";
     filter_of "CITY" "GT" "London"].
Proof.
  exists (filter_of "MONTH" "LT" "6"), (filter_of "CITY" "GT" "London"),
    "month", "city".
  split_and!.
  - apply list_elem_of_here.
  - do 2 apply list_elem_of_further. apply list_elem_of_here.
  - by apply (inequality_on_intro _ _ "<").
  - by apply (inequality_on_intro _ _ ">").
  - done.
Defined.

Lemma two_inequality_fields_rejected_witness :
  _formatFilters
    [filter_of "CITY" "GT" "London"; filter_of "CITY" "EQ" "Paris";
     filter_of "MONTH" "LT" "6"]
  = Raise inequality_error ∧
  _getQuery
    [filter_of "CITY" "GT" "London"; filter_of "CITY" "EQ" "Paris";
     filter_of "MONTH" "LT" "6"]
  = Raise inequality_error.
Proof.
  apply (two_inequality_fields_rejected
           [filter_of "MONTH" "LT" "6"; filter_of "CITY" "EQ" "Paris";
            filter_of "CITY" "GT" "London"]).
  - repeat constructor; vm_compute; eauto.
  - exact two_inequality_fields_sample.
  - exact (reverse_Permutation
             [filter_of "MONTH" "LT" "6"; filter_of "CITY" "EQ" "Paris";
              filter_of "CITY" "GT" "London"]).
Defined.

Lemma coercible_of_resolves fs ds :
  Forall2 resolves fs ds →
  (∀ f, f ∈ fs → numeric_filter f → is_Some (int_literal (value f))) →
  Forall coercible ds.
Proof.
  induction 1 as [|f d fs ds Hr _ IH]; intros Hnum; constructor.
  - intros Hd. apply (resolves_numeric f d Hr) in Hd.
    destruct Hr as (_ & _ & ->).
    apply Hnum; [apply list_elem_of_here|done].
  - apply IH. intros f' Hin. apply Hnum. by apply list_elem_of_further.
Qed.

(** C4.  A list of valid filters whose numeric values are integer literals
    and in which at most one field bears a non-equality operator compiles to
    a query; that query is sorted on the inequality field first and on
    [name] second when there is such a field, and on [name] alone when there
    is none. *)
Theorem query_sort_order (fs : list ConferenceQueryForm) :
  Forall valid_filter fs →
  (∀ f, f ∈ fs → numeric_filter f → is_Some (int_literal (value f))) →
  ¬ two_inequality_fields fs →
  ∃ q, _getQuery fs = Return q ∧
       (∀ f fld, f ∈ fs → inequality_on f fld → orders q = [fld; "name"]) ∧
       ((∀ f fld, f ∈ fs → ¬ inequality_on f fld) → orders q = ["name"]).
Proof.
  intros Hv Hnum Hone.
  destruct (_formatFilters_accepts fs Hv Hone) as (g & ds & Hrun & Hres & Hor & Hall).
  unfold _getQuery. rewrite Hrun.
  pose proof (coercible_of_resolves fs ds Hres Hnum) as Hc.
  destruct Hor as [->|(f & fld & Hin & Hi & ->)].
  - destruct (_getQuery_loop_orders ds (order Conference_query "name") Hc)
      as (q & Hq & Hord & _).
    exists q. simpl. split_and!; [done| |done].
    intros f fld Hin Hi. by specialize (Hall f fld Hin Hi).
  - pose proof Hi as [Hfld _]. rewrite (FIELDS_truthy _ _ Hfld). simpl.
    destruct (_getQuery_loop_orders ds
                (order (order Conference_query fld) "name") Hc)
      as (q & Hq & Hord & _).
    exists q. split_and!; [done| |].
    + intros f' fld' Hin' Hi'. specialize (Hall f' fld' Hin' Hi').
      injection Hall as ->. done.
    + intros Hnone. by destruct (Hnone f fld Hin).
Qed.

Lemma query_sort_order_witness :
  ∃ q, _getQuery [filter_of "CITY" "EQ" "London"; filter_of "MONTH" "GTEQ" "6";
                  filter_of "MONTH" "LT" "9"] = Return q ∧
       orders q = ["month"; "name"].
Proof.
  destruct (query_sort_order
              [filter_of "CITY" "EQ" "London"; filter_of "MONTH" "GTEQ" "6";
               filter_of "MONTH" "LT" "9"]) as (q & Hq & Hineq & _).
  - repeat constructor; vm_compute; eauto.
  - intros f Hin Hnum. rewrite !elem_of_cons, elem_of_nil in Hin.
    destruct Hin as [->|[->|[->|[]]]]; [|vm_compute; eauto..].
    destruct Hnum as [Hnum|Hnum]; vm_compute in Hnum; discriminate Hnum.
  - intros (f1 & f2 & fld1 & fld2 & H1 & H2 & [Hf1 (o1 & Ho1 & Hn1)]
            & [Hf2 (o2 & Ho2 & Hn2)] & Hne).
    rewrite !elem_of_cons, elem_of_nil in H1, H2.
    destruct H1 as [->|[->|[->|[]]]]; destruct H2 as [->|[->|[->|[]]]];
      vm_compute in Hf1, Hf2, Ho1, Ho2; congruence.
  - exists q. split; [exact Hq|].
    apply (Hineq (filter_of "MONTH" "LT" "9")).
    + do 2 apply list_elem_of_further. apply list_elem_of_here.
    + by apply (inequality_on_intro _ _ "<").
Defined.

(** What [int_literal] does with a blank value and with a value holding a
    character of no meaning to [int()]. *)
Lemma lstrip_keeps (a : ascii) (l : list ascii) :
  a ∈ l → is_space a = false → a ∈ lstrip l.
Proof.
  intros Hin Ha. induction l as [|b l IH]; [done|]. simpl.
  destruct (is_space b) eqn:Hb; [|done].
  apply elem_of_cons in Hin as [->|Hin]; [congruence|by apply IH].
Qed.

Lemma strip_keeps (a : ascii) (l : list ascii) :
  a ∈ l → is_space a = false → a ∈ strip l.
Proof.
  intros Hin Ha. unfold strip.
  apply list_elem_of_In, in_rev. rewrite rev_involutive.
  apply list_elem_of_In, lstrip_keeps; [|done].
  apply list_elem_of_In, in_rev. rewrite rev_involutive.
  apply list_elem_of_In. by apply lstrip_keeps.
Qed.

Lemma lstrip_blank (l : list ascii) :
  (∀ a, a ∈ l → is_space a = true) → lstrip l = [].
Proof.
  induction l as [|b l IH]; intros Hl; [done|]. simpl.
  rewrite (Hl b) by apply list_elem_of_here.
  apply IH. intros a Ha. apply Hl. by apply list_elem_of_further.
Qed.

Lemma digits_foreign (l : list ascii) (acc : Z) (a : ascii) :
  a ∈ l → digit_val a = None → digits acc l = None.
Proof.
  intros Hin Ha. revert acc. induction l as [|b l IH]; intros acc;
    [by apply elem_of_nil in Hin|].
  simpl. destruct (digit_val b) as [d|] eqn:Hb; [|done].
  apply elem_of_cons in Hin as [->|Hin]; [congruence|by apply IH].
Qed.

Lemma unsigned_literal_foreign (l : list ascii) (a : ascii) :
  a ∈ l → digit_val a = None → unsigned_literal l = None.
Proof.
  intros Hin Ha. destruct l as [|b l]; [by apply elem_of_nil in Hin|].
  by apply (digits_foreign _ _ a).
Qed.

Lemma int_literal_cases (s : string) :
  int_literal s =
  match strip (list_ascii_of_string s) with
  | [] => None
  | c :: ds =>
      if decide (c = "+"%char) then unsigned_literal ds
      else if decide (c = "-"%char) then Z.opp <$> unsigned_literal ds
      else unsigned_literal (c :: ds)
  end.
Proof.
  unfold int_literal. destruct (strip (list_ascii_of_string s)) as [|c ds];
    [done|].
  destruct c as [[] [] [] [] [] [] [] []]; reflexivity.
Qed.

Lemma foreign_char_inv (a : ascii) :
  foreign_char a = true →
  digit_val a = None ∧ is_space a = false ∧
  a ≠ "+"%char ∧ a ≠ "-"%char.
Proof.
  unfold foreign_char. rewrite !andb_true_iff, !negb_true_iff.
  intros ((((((_ & Hd) & Hs) & _) & Hplus) & Hminus) & _).
  split_and!.
  - by destruct (digit_val a).
  - done.
  - intros ->. discriminate Hplus.
  - intros ->. discriminate Hminus.
Qed.

Lemma not_an_integer_literal_rejected (v : string) :
  not_an_integer_literal v → int_literal v = None.
Proof.
  intros [Hblank|(a & Hin & Ha)]; rewrite int_literal_cases.
  - unfold strip. by rewrite (lstrip_blank _ Hblank).
  - destruct (foreign_char_inv a Ha) as (Hd & Hs & Hplus & Hminus).
    pose proof (strip_keeps a _ Hin Hs) as Hin'.
    destruct (strip (list_ascii_of_string v)) as [|c ds];
      [by apply elem_of_nil in Hin'|].
    destruct (decide (c = "+"%char)) as [->|_];
      [|destruct (decide (c = "-"%char)) as [->|_]].
    + apply elem_of_cons in Hin' as [?|Hin']; [done|].
      by apply (unsigned_literal_foreign _ a).
    + apply elem_of_cons in Hin' as [?|Hin']; [done|].
      by rewrite (unsigned_literal_foreign _ a).
    + by apply (unsigned_literal_foreign _ a).
Qed.

(** C10.  [_formatFilters] looks at field names and operators only: a list
    of valid filters with at most one inequality field is accepted whatever
    its values are.  When one of its filters on [month] or [maxAttendees]
    carries a value that is no integer literal (a blank value, or one with
    a character no integer literal holds, such as a letter), [_getQuery]
    raises the [ValueError] of [int()], not a [BadRequestException]. *)
Theorem unvalidated_numeric_value (fs : list ConferenceQueryForm)
    (f : ConferenceQueryForm) :
  Forall valid_filter fs → ¬ two_inequality_fields fs →
  f ∈ fs → numeric_filter f → not_an_integer_literal (value f) →
  (∃ g ds, _formatFilters fs = Return (g, ds)) ∧
  ∃ lit, _getQuery fs = Raise (ValueError lit).
Proof.
  intros Hv Hone Hin Hnum Hbad%not_an_integer_literal_rejected.
  destruct (_formatFilters_accepts fs Hv Hone) as (g & ds & Hrun & Hres & _).
  split; [by exists g, ds|].
  unfold _getQuery. rewrite Hrun.
  destruct (proj1 (list_elem_of_lookup fs f) Hin) as [i Hi].
  destruct (Forall2_lookup_l _ _ _ _ _ Hres Hi) as (d & Hd & Hr).
  edestruct (_getQuery_loop_rejects ds) as (lit & Hlit & _);
    [by eapply list_elem_of_lookup_2|by apply (resolves_numeric f d)| |].
  - destruct Hr as (_ & _ & ->). exact Hbad.
  - exists lit. exact Hlit.
Qed.

Lemma unvalidated_numeric_value_witness :
  (∃ g ds, _formatFilters [filter_of "CITY" "EQ" "London";
                           filter_of "MONTH" "EQ" "June"]
           = Return (g, ds)) ∧
  ∃ lit, _getQuery [filter_of "CITY" "EQ" "London";
                    filter_of "MONTH" "EQ" "June"]
         = Raise (ValueError lit).
Proof.
  apply (unvalidated_numeric_value
           [filter_of "CITY" "EQ" "London"; filter_of "MONTH" "EQ" "June"]
           (filter_of "MONTH" "EQ" "June")).
  - repeat constructor; vm_compute; eauto.
  - intros (f1 & f2 & fld1 & fld2 & H1 & _ & [_ (o1 & Ho1 & Hn1)] & _).
    rewrite !elem_of_cons, elem_of_nil in H1.
    destruct H1 as [->|[->|[]]]; vm_compute in Ho1; congruence.
  - apply list_elem_of_further, list_elem_of_here.
  - left. reflexivity.
  - right. exists "J"%char. split; [apply list_elem_of_here|reflexivity].
Defined.

(** ** Registration *)

Section Registration.

Implicit Types (w : World) (u : User) (p : Profile) (c : Conference).

Lemma bind_Return {A B} (m : M A) (k : A → M B) w a w' :
  m w = (Return a, w') → bind m k w = k a w'.
Proof. unfold bind. by intros ->. Qed.

Lemma bind_Raise {A B} (m : M A) (k : A → M B) w e w' :
  m w = (Raise e, w') → bind m k w = (Raise e, w').
Proof. unfold bind. by intros ->. Qed.

Lemma World_eta w :
  {| datastore := datastore w; profiles := profiles w;
     memcache := memcache w; current_user := current_user w |} = w.
Proof. by destruct w. Qed.

(** The profile the handlers work on, and the world after fetching it. *)
Lemma _getProfileFromUser_stored w u p :
  current_user w = Some u → profiles w !! user_id u = Some p →
  _getProfileFromUser w = (Return (user_id u, p), w).
Proof.
  intros Hu Hp. unfold _getProfileFromUser, login_required, bind,
    get_current_user, Profile_get, ret. simpl.
  rewrite Hu. simpl. rewrite Hu. simpl. by rewrite Hp.
Qed.

Lemma _getProfileFromUser_fresh w u :
  current_user w = Some u → profiles w !! user_id u = None →
  _getProfileFromUser w =
  (Return (user_id u, fresh_profile u),
   {| datastore := datastore w;
      profiles := <[user_id u := fresh_profile u]> (profiles w);
      memcache := memcache w; current_user := current_user w |}).
Proof.
  intros Hu Hp. unfold _getProfileFromUser, login_required, bind,
    get_current_user, Profile_get, Profile_put, ret. simpl.
  rewrite Hu. simpl. rewrite Hu. simpl. rewrite Hp. simpl.
  by rewrite ?Hu.
Qed.

(** Either way the handler gets [profile_of w u], and the world differs
    at most by that profile being stored. *)
Lemma _getProfileFromUser_run w u :
  current_user w = Some u →
  _getProfileFromUser w =
  (Return (user_id u, profile_of w u), put_profile w u (profile_of w u)).
Proof.
  intros Hu. unfold profile_of, put_profile.
  destruct (profiles w !! user_id u) as [p|] eqn:Hp; simpl.
  - rewrite (_getProfileFromUser_stored w u p Hu Hp).
    by rewrite insert_id, World_eta.
  - by rewrite (_getProfileFromUser_fresh w u Hu Hp).
Qed.

Lemma attending_profile_of w u :
  conferenceKeysToAttend (profile_of w u) = attending w (user_id u).
Proof.
  unfold profile_of, attending. by destruct (profiles w !! user_id u).
Qed.

Lemma wishlist_profile_of w u :
  sessionKeysOnWishlist (profile_of w u) = wishlist w (user_id u).
Proof.
  unfold profile_of, wishlist. by destruct (profiles w !! user_id u).
Qed.

Lemma put_profile_stored w u :
  is_Some (profiles w !! user_id u) → put_profile w u (profile_of w u) = w.
Proof.
  intros [p Hp]. unfold put_profile, profile_of. rewrite Hp. simpl.
  by rewrite insert_id, World_eta.
Qed.

Lemma py_in_false x (l : list string) : x ∉ l → py_in x l = false.
Proof. intros. unfold py_in. by apply bool_decide_eq_false_2. Qed.

Lemma py_in_true x (l : list string) : x ∈ l → py_in x l = true.
Proof. intros. unfold py_in. by apply bool_decide_eq_true_2. Qed.

Lemma list_remove_app_fresh x (l : list string) :
  x ∉ l → list_remove x (l ++ [x]) = l.
Proof.
  induction l as [|y l IH]; intros Hx; simpl.
  - by rewrite decide_True.
  - apply not_elem_of_cons in Hx as [Hne Hx].
    rewrite decide_False by done. by rewrite IH.
Qed.

Lemma setattr_seatsAvailable_same c :
  setattr_seatsAvailable (EConference c) (seatsAvailable c) = EConference c.
Proof. by destruct c. Qed.

(** The four ways through [_conferenceRegistration] once the conference
    key resolves. *)
Lemma register_run w u wsck c :
  current_user w = Some u →
  datastore w !! wsck = Some (EConference c) →
  0 < seatsAvailable c →
  wsck ∉ attending w (user_id u) →
  registerForConference wsck w =
  (Return {| data := true |},
   put_both w u
     (set_conferenceKeysToAttend (profile_of w u)
        (attending w (user_id u) ++ [wsck]))
     wsck (setattr_seatsAvailable (EConference c) (seatsAvailable c - 1))).
Proof.
  intros Hu Hc Hseats Hnot.
  unfold registerForConference, _conferenceRegistration, transactional.
  rewrite (bind_Return _ _ _ _ _ (_getProfileFromUser_run w u Hu)).
  unfold bind at 1. unfold Key_get at 1. simpl. rewrite Hc.
  rewrite attending_profile_of, (py_in_false _ _ Hnot).
  unfold bind, ret, Profile_put, Entity_put. simpl.
  destruct (Z.leb_spec (seatsAvailable c) 0) as [?|_]; [lia|].
  unfold put_both, put_profile. simpl. by rewrite insert_insert_eq.
Qed.

Lemma register_linked_run w u wsck e :
  current_user w = Some u →
  datastore w !! wsck = Some e →
  wsck ∈ attending w (user_id u) →
  registerForConference wsck w =
  (Raise (ConflictException
            "You have already registered for this conference"), w).
Proof.
  intros Hu Hc Hin.
  unfold registerForConference, _conferenceRegistration, transactional.
  rewrite (bind_Return _ _ _ _ _ (_getProfileFromUser_run w u Hu)).
  unfold bind at 1. unfold Key_get at 1. simpl. rewrite Hc.
  rewrite attending_profile_of, (py_in_true _ _ Hin).
  unfold bind, raise. done.
Qed.

Lemma unregister_linked_run w u wsck c :
  current_user w = Some u →
  datastore w !! wsck = Some (EConference c) →
  wsck ∈ attending w (user_id u) →
  unregisterFromConference wsck w =
  (Return {| data := true |},
   put_both w u
     (set_conferenceKeysToAttend (profile_of w u)
        (list_remove wsck (attending w (user_id u))))
     wsck (setattr_seatsAvailable (EConference c) (seatsAvailable c + 1))).
Proof.
  intros Hu Hc Hin.
  unfold unregisterFromConference, _conferenceRegistration, transactional.
  rewrite (bind_Return _ _ _ _ _ (_getProfileFromUser_run w u Hu)).
  unfold bind at 1. unfold Key_get at 1. simpl. rewrite Hc.
  rewrite attending_profile_of, (py_in_true _ _ Hin).
  unfold bind, ret, Profile_put, Entity_put. simpl.
  unfold put_both, put_profile. simpl. by rewrite insert_insert_eq.
Qed.

Lemma unregister_unlinked_run w u wsck e :
  current_user w = Some u →
  datastore w !! wsck = Some e →
  wsck ∉ attending w (user_id u) →
  unregisterFromConference wsck w =
  (Return {| data := false |}, put_profile w u (profile_of w u)).
Proof.
  intros Hu Hc Hnot.
  unfold unregisterFromConference, _conferenceRegistration, transactional.
  rewrite (bind_Return _ _ _ _ _ (_getProfileFromUser_run w u Hu)).
  unfold bind at 1. unfold Key_get at 1. simpl. rewrite Hc.
  rewrite attending_profile_of, (py_in_false _ _ Hnot).
  unfold bind, ret, Profile_put, Entity_put. simpl.
  unfold put_both, put_profile. simpl.
  by rewrite insert_insert_eq, (insert_id _ _ _ Hc).
Qed.

Lemma attending_put_profile w u p :
  attending (put_profile w u p) (user_id u) = conferenceKeysToAttend p.
Proof. unfold attending, put_profile. simpl. by rewrite lookup_insert_eq. Qed.

Lemma attending_put_both w u p k e :
  attending (put_both w u p k e) (user_id u) = conferenceKeysToAttend p.
Proof. unfold attending, put_both. simpl. by rewrite lookup_insert_eq. Qed.

Lemma profile_of_put_both w u p k e : profile_of (put_both w u p k e) u = p.
Proof. unfold profile_of, put_both. simpl. by rewrite lookup_insert_eq. Qed.

Lemma set_conferenceKeysToAttend_twice p l l' :
  set_conferenceKeysToAttend (set_conferenceKeysToAttend p l) l'
  = set_conferenceKeysToAttend p l'.
Proof. done. Qed.

Lemma set_conferenceKeysToAttend_same p :
  set_conferenceKeysToAttend p (conferenceKeysToAttend p) = p.
Proof. by destruct p. Qed.

Lemma login_required_signed_in {A} (f : M A) w u :
  current_user w = Some u → login_required f w = f w.
Proof.
  intros Hu. unfold login_required, bind, get_current_user. by rewrite Hu.
Qed.

Lemma wishlist_put_profile w u p :
  wishlist (put_profile w u p) (user_id u) = sessionKeysOnWishlist p.
Proof. unfold wishlist, put_profile. simpl. by rewrite lookup_insert_eq. Qed.

(** Registering twice: the second call raises and changes nothing, so one
    seat is taken in all. *)
Lemma register_twice w u wsck c :
  current_user w = Some u →
  datastore w !! wsck = Some (EConference c) →
  0 < seatsAvailable c →
  wsck ∉ attending w (user_id u) →
  ∃ w1 c1,
    registerForConference wsck w = (Return {| data := true |}, w1) ∧
    registerForConference wsck w1 =
    (Raise (ConflictException
              "You have already registered for this conference"), w1) ∧
    datastore w1 !! wsck = Some (EConference c1) ∧
    seatsAvailable c1 = seatsAvailable c - 1.
Proof.
  intros Hu Hc Hseats Hnot. eexists _, _.
  rewrite (register_run w u wsck c Hu Hc Hseats Hnot). split_and!.
  - done.
  - eapply (register_linked_run _ u wsck);
      [exact Hu|apply lookup_insert_eq|].
    rewrite attending_put_both. simpl.
    apply elem_of_app. right. apply list_elem_of_here.
  - apply lookup_insert_eq.
  - done.
Qed.

End Registration.

(** C1.  A signed-in user who is not registered for an existing conference
    with no seat left is refused with the [ConflictException] "There are no
    seats available." (the capacity error), and the world after the call is
    the world before it: neither the profile nor the conference changes. *)
Theorem register_without_seats (w : World) (u : User) (wsck : string)
    (c : Conference) :
  current_user w = Some u →
  datastore w !! wsck = Some (EConference c) →
  seatsAvailable c = 0 →
  wsck ∉ attending w (user_id u) →
  registerForConference wsck w =
  (Raise (ConflictException "There are no seats available."), w).
Proof.
  intros Hu Hc Hseats Hnot.
  unfold registerForConference, _conferenceRegistration, transactional.
  rewrite (bind_Return _ _ _ _ _ (_getProfileFromUser_run w u Hu)).
  unfold bind at 1. unfold Key_get at 1. simpl. rewrite Hc.
  rewrite attending_profile_of, (py_in_false _ _ Hnot).
  unfold bind at 1. simpl. unfold bind, ret. rewrite Hseats. done.
Qed.

Lemma register_without_seats_witness :
  registerForConference "c0" sample_world =
  (Raise (ConflictException "There are no seats available."), sample_world).
Proof.
  apply (register_without_seats sample_world alice "c0" sold_out).
  - reflexivity.
  - reflexivity.
  - reflexivity.
  - apply (bool_decide_unpack _). vm_compute. exact I.
Defined.


(** C5.  Registering and then unregistering is a round trip: both calls
    succeed, the first takes one seat, and afterwards the conference is
    stored exactly as before (so [seatsAvailable] is back to its value) and
    the user's [conferenceKeysToAttend] has its prior contents; the whole
    world is the one before when the profile was already stored. *)
Theorem register_unregister_round_trip (w : World) (u : User) (wsck : string)
    (c : Conference) :
  current_user w = Some u →
  datastore w !! wsck = Some (EConference c) →
  0 < seatsAvailable c →
  wsck ∉ attending w (user_id u) →
  ∃ w1 w2 c1,
    registerForConference wsck w = (Return {| data := true |}, w1) ∧
    datastore w1 !! wsck = Some (EConference c1) ∧
    seatsAvailable c1 = seatsAvailable c - 1 ∧
    wsck ∈ attending w1 (user_id u) ∧
    unregisterFromConference wsck w1 = (Return {| data := true |}, w2) ∧
    datastore w2 !! wsck = Some (EConference c) ∧
    datastore w2 = datastore w ∧
    attending w2 (user_id u) = attending w (user_id u) ∧
    (is_Some (profiles w !! user_id u) → w2 = w).
Proof.
  intros Hu Hc Hseats Hnot.
  set (p1 := set_conferenceKeysToAttend (profile_of w u)
               (attending w (user_id u) ++ [wsck])).
  set (c1 := {| Conference_name := Conference_name c; city := city c;
                topics := topics c; month := month c;
                maxAttendees := maxAttendees c;
                seatsAvailable := seatsAvailable c - 1;
                organizerUserId := organizerUserId c |}).
  set (w1 := put_both w u p1 wsck (EConference c1)).
  assert (datastore w1 !! wsck = Some (EConference c1)) as Hc1
    by apply lookup_insert_eq.
  assert (wsck ∈ attending w1 (user_id u)) as Hin1.
  { unfold w1. rewrite attending_put_both. simpl.
    apply elem_of_app. right. apply list_elem_of_here. }
  assert (setattr_seatsAvailable (EConference c1) (seatsAvailable c1 + 1)
          = EConference c) as Hback.
  { destruct c. simpl. do 2 f_equal. lia. }
  assert (set_conferenceKeysToAttend (profile_of w1 u)
            (list_remove wsck (attending w1 (user_id u))) = profile_of w u)
    as Hprof.
  { unfold w1. rewrite profile_of_put_both, attending_put_both. simpl.
    rewrite (list_remove_app_fresh _ _ Hnot). unfold p1.
    rewrite set_conferenceKeysToAttend_twice, <- attending_profile_of.
    apply set_conferenceKeysToAttend_same. }
  eexists w1, _, c1. split_and!.
  - apply (register_run w u wsck c Hu Hc Hseats Hnot).
  - done.
  - done.
  - done.
  - apply (unregister_linked_run w1 u wsck c1 Hu Hc1 Hin1).
  - rewrite Hback. apply lookup_insert_eq.
  - rewrite Hback. simpl. by rewrite insert_insert_eq, insert_id.
  - rewrite Hprof, attending_put_both. apply attending_profile_of.
  - intros Hp. rewrite Hback, Hprof. unfold put_both, w1. simpl.
    rewrite !insert_insert_eq, (insert_id _ _ _ Hc).
    apply (put_profile_stored w u Hp).
Qed.

Lemma register_unregister_round_trip_witness :
  ∃ w1 w2 c1,
    registerForConference "c1" sample_world = (Return {| data := true |}, w1) ∧
    datastore w1 !! "c1" = Some (EConference c1) ∧
    seatsAvailable c1 = 1 ∧
    "c1" ∈ attending w1 "alice" ∧
    unregisterFromConference "c1" w1 = (Return {| data := true |}, w2) ∧
    datastore w2 !! "c1" = Some (EConference open_conference) ∧
    datastore w2 = datastore sample_world ∧
    attending w2 "alice" = [] ∧
    (is_Some (profiles sample_world !! "alice") → w2 = sample_world).
Proof.
  apply (register_unregister_round_trip sample_world alice "c1"
           open_conference).
  - reflexivity.
  - reflexivity.
  - reflexivity.
  - apply (bool_decide_unpack _). vm_compute. exact I.
Defined.


(** C6.  Unregistering a signed-in user from an existing conference they are
    not registered for returns [BooleanMessage(data=False)] and raises
    nothing; the datastore, hence the conference and its [seatsAvailable],
    and the user's [conferenceKeysToAttend] are what they were (the whole
    world is, when the profile was already stored). *)
Theorem unregister_never_linked (w : World) (u : User) (wsck : string)
    (c : Conference) :
  current_user w = Some u →
  datastore w !! wsck = Some (EConference c) →
  wsck ∉ attending w (user_id u) →
  ∃ w',
    unregisterFromConference wsck w = (Return {| data := false |}, w') ∧
    datastore w' = datastore w ∧
    attending w' (user_id u) = attending w (user_id u) ∧
    (is_Some (profiles w !! user_id u) → w' = w).
Proof.
  intros Hu Hc Hnot. eexists.
  rewrite (unregister_unlinked_run w u wsck _ Hu Hc Hnot). split_and!.
  - done.
  - done.
  - rewrite attending_put_profile. apply attending_profile_of.
  - apply put_profile_stored.
Qed.

Lemma unregister_never_linked_witness :
  ∃ w',
    unregisterFromConference "c1" sample_world
    = (Return {| data := false |}, w') ∧
    datastore w' = datastore sample_world ∧
    attending w' "alice" = [] ∧
    (is_Some (profiles sample_world !! "alice") → w' = sample_world).
Proof.
  apply (unregister_never_linked sample_world alice "c1" open_conference).
  - reflexivity.
  - reflexivity.
  - apply (bool_decide_unpack _). vm_compute. exact I.
Defined.


(** C2, the wishlist half on the code.  Adding a session that is already on
    the wishlist does not raise: the [ConflictException] "You already have
    this in your wishlist" is caught by the bare [except] and the call
    returns [BooleanMessage(data=False)], leaving the world as it was. *)
Theorem wishlist_duplicate_add_returns_false (w : World) (u : User)
    (k : string) :
  current_user w = Some u →
  is_Some (datastore w !! k) →
  k ∈ wishlist w (user_id u) →
  addSessionToWishlist k w = (Return {| data := false |}, w).
Proof.
  intros Hu [e He] Hin.
  assert (is_Some (profiles w !! user_id u)) as Hp.
  { unfold wishlist in Hin. destruct (profiles w !! user_id u); [done|].
    by apply elem_of_nil in Hin. }
  unfold addSessionToWishlist.
  rewrite (login_required_signed_in _ w u Hu). unfold transactional.
  rewrite (bind_Return _ _ _ _ _ (_getProfileFromUser_run w u Hu)).
  rewrite (put_profile_stored w u Hp).
  unfold bind at 1. unfold Key_get at 1. rewrite He.
  rewrite wishlist_profile_of, (py_in_true _ _ Hin).
  unfold bind, try_except, raise, ret. done.
Qed.

Lemma wishlist_duplicate_add_returns_false_witness :
  addSessionToWishlist "s1" sample_world
  = (Return {| data := false |}, sample_world).
Proof.
  apply (wishlist_duplicate_add_returns_false sample_world alice "s1").
  - reflexivity.
  - exists (ESession intro_session). reflexivity.
  - apply (bool_decide_unpack _). vm_compute. exact I.
Defined.


(** C7 on the code.  Deleting a session that is not on the wishlist does not
    raise: the [NotFoundException] "No session found in wishlist with key:
    ..." is caught by the bare [except] and the call returns
    [BooleanMessage(data=False)]; the wishlist is what it was. *)
Theorem wishlist_delete_absent_returns_false (w : World) (u : User)
    (k : string) :
  current_user w = Some u →
  is_Some (datastore w !! k) →
  k ∉ wishlist w (user_id u) →
  ∃ w',
    deleteSessionFromWishlist k w = (Return {| data := false |}, w') ∧
    wishlist w' (user_id u) = wishlist w (user_id u).
Proof.
  intros Hu [e He] Hnot. eexists.
  unfold deleteSessionFromWishlist.
  rewrite (login_required_signed_in _ w u Hu). unfold transactional.
  rewrite (bind_Return _ _ _ _ _ (_getProfileFromUser_run w u Hu)).
  unfold bind at 1. unfold Key_get at 1. simpl. rewrite He.
  rewrite wishlist_profile_of, (py_in_false _ _ Hnot).
  unfold bind, try_except, raise, ret. split; [done|].
  rewrite wishlist_put_profile. apply wishlist_profile_of.
Qed.

Lemma wishlist_delete_absent_returns_false_witness :
  ∃ w',
    deleteSessionFromWishlist "s2" sample_world
    = (Return {| data := false |}, w') ∧
    wishlist w' "alice" = ["s1"].
Proof.
  apply (wishlist_delete_absent_returns_false sample_world alice "s2").
  - reflexivity.
  - exists (ESession deep_session). reflexivity.
  - apply (bool_decide_unpack _). vm_compute. exact I.
Defined.


(** ** The featured-speaker task *)

Section FeaturedSpeaker.

Implicit Types (w : World) (request : Task) (ds : gmap string Entity).

(** Overwriting the value under a key that is present keeps the order in
    which a map is enumerated. *)
Lemma map_to_list_overwrite {A} (m : gmap string A) k x y :
  m !! k = Some x →
  map_to_list (<[k := y]> m)
  = (λ kv, if decide (kv.1 = k) then (k, y) else kv) <$> map_to_list m.
Proof.
  revert k x y.
  induction m as [|i x' m Hi Hfirst IH] using map_first_key_ind;
    intros k x y Hk.
  { by rewrite lookup_empty in Hk. }
  rewrite (map_to_list_insert_first_key m i x' Hi Hfirst). simpl.
  destruct (decide (i = k)) as [->|Hne].
  - rewrite insert_insert_eq.
    rewrite (map_to_list_insert_first_key m k y Hi).
    + f_equal. symmetry. rewrite <- (list_fmap_id (map_to_list m)) at 2.
      apply list_fmap_ext. intros j [k' a] Hj. simpl.
      destruct (decide (k' = k)) as [->|]; [|done].
      apply list_elem_of_lookup_2, elem_of_map_to_list in Hj. congruence.
    + apply (map_first_key_dom' (<[k:=x']> m)); [|done].
      intros j. by rewrite !lookup_insert_is_Some.
  - rewrite lookup_insert_ne in Hk by done.
    rewrite (insert_insert_ne m k i y x') by done.
    rewrite (map_to_list_insert_first_key (<[k:=y]> m) i x').
    + f_equal. by apply (IH k x y).
    + by rewrite lookup_insert_ne.
    + apply (map_first_key_dom' (<[i:=x']> m)); [|done].
      intros j. rewrite !lookup_insert_is_Some'.
      assert (is_Some (m !! k)) by eauto.
      split; [intros [->|Hj]|intros [->|[->|Hj]]]; auto.
Qed.

Lemma omap_fmap_same {A B} (f : A → option B) (g : A → A) (l : list A) :
  (∀ a, a ∈ l → f (g a) = f a) → omap f (g <$> l) = omap f l.
Proof.
  induction l as [|a l IH]; intros H; [done|]. csimpl.
  rewrite (H a) by apply list_elem_of_here.
  rewrite IH; [done|]. intros a' Ha'. apply H. by apply list_elem_of_further.
Qed.

(** The query sees sessions only: replacing a speaker by a speaker does
    not change what it finds, nor in which order. *)
Lemma Session_query_fetch_put_speaker ds k sp sp' sk wck :
  ds !! k = Some (ESpeaker sp) →
  Session_query_fetch (<[k := ESpeaker sp']> ds) sk wck
  = Session_query_fetch ds sk wck.
Proof.
  intros Hk. unfold Session_query_fetch.
  rewrite (map_to_list_overwrite ds k _ _ Hk).
  apply omap_fmap_same. intros [k' e] Hin. simpl.
  destruct (decide (k' = k)) as [->|]; [|done].
  apply elem_of_map_to_list in Hin.
  assert (e = ESpeaker sp) as -> by congruence. done.
Qed.

Lemma Session_query_fetch_spec ds sk wck k s :
  (k, s) ∈ Session_query_fetch ds sk wck ↔
  ds !! k = Some (ESession s) ∧ speakerKey s = sk ∧
  websafeConferenceKey s = wck.
Proof.
  unfold Session_query_fetch. rewrite list_elem_of_omap. split.
  - intros ([k' e] & Hin & Hm). apply elem_of_map_to_list in Hin.
    unfold session_matches in Hm. simpl in Hm.
    destruct e as [c|s'|sp]; try discriminate Hm.
    destruct (bool_decide (speakerKey s' = sk)) eqn:H1; [|discriminate Hm].
    destruct (bool_decide (websafeConferenceKey s' = wck)) eqn:H2;
      [|discriminate Hm].
    simpl in Hm. injection Hm as -> ->.
    by apply bool_decide_eq_true in H1, H2.
  - intros (Hk & H1 & H2). exists (k, ESession s). split.
    + by apply elem_of_map_to_list.
    + unfold session_matches. simpl.
      by rewrite (bool_decide_eq_true_2 _ H1), (bool_decide_eq_true_2 _ H2).
Qed.

Lemma session_matches_key sk wck kv ks :
  session_matches sk wck kv = Some ks → ks.1 = kv.1.
Proof.
  unfold session_matches. destruct (kv.2); try discriminate.
  destruct (_ && _); [|discriminate]. by intros [= <-].
Qed.

Lemma Session_query_fetch_NoDup ds sk wck :
  NoDup (Session_query_fetch ds sk wck).*1.
Proof.
  unfold Session_query_fetch.
  apply (sublist_NoDup _ (map_to_list ds).*1);
    [apply NoDup_fst_map_to_list|].
  induction (map_to_list ds) as [|kv l IH]; [done|]. simpl.
  destruct (session_matches sk wck kv) as [ks|] eqn:Hm; simpl.
  - rewrite (session_matches_key _ _ _ _ Hm). by apply sublist_skip.
  - by apply sublist_cons.
Qed.

Lemma _updateSpeaker_run request w :
  ∃ result, _updateSpeaker request w = (Return result, after_update request w).
Proof.
  unfold _updateSpeaker, after_update, try_except, bind, Key_get, Entity_put,
    ret, raise. simpl.
  destruct (datastore w !! task_speakerKey request) as [[c|s|sp]|];
    simpl; eauto.
Qed.

Lemma SetFeaturedSpeakerHandler_post_run request w :
  SetFeaturedSpeakerHandler_post request w
  = (Return tt, after_update request (after_publish request w)).
Proof.
  unfold SetFeaturedSpeakerHandler_post, bind at 1. unfold Session_query at 1.
  fold (found_sessions request w).
  assert ((if 1 <? Z.of_nat (length (found_sessions request w))
           then memcache_set MEMCACHE_FEATURED_SPEAKER
                  (task_speakerName request
                   +:+ " is Featured Speaker with sessions "
                   +:+ String.concat ", "
                         ((λ session, Session_name session.2)
                            <$> found_sessions request w))
           else ret tt) w = (Return tt, after_publish request w)) as Hpub.
  { unfold after_publish, memcache_set, ret, announcement.
    destruct (Z.ltb_spec 1 (Z.of_nat (length (found_sessions request w)))).
    - rewrite bool_decide_eq_true_2 by lia. done.
    - rewrite bool_decide_eq_false_2 by lia. by rewrite World_eta. }
  rewrite (bind_Return _ _ _ _ _ Hpub).
  destruct (_updateSpeaker_run request (after_publish request w))
    as [result Hrun].
  by rewrite (bind_Return _ _ _ _ _ Hrun).
Qed.

Lemma memcache_after_update request w :
  memcache (after_update request w) = memcache w.
Proof.
  unfold after_update.
  by destruct (datastore w !! task_speakerKey request) as [[c|s|sp]|].
Qed.

Lemma profiles_after_update request w :
  profiles (after_update request w) = profiles w.
Proof.
  unfold after_update.
  by destruct (datastore w !! task_speakerKey request) as [[c|s|sp]|].
Qed.

Lemma lookup_after_update_ne request w k :
  k ≠ task_speakerKey request →
  datastore (after_update request w) !! k = datastore w !! k.
Proof.
  intros Hne. unfold after_update.
  destruct (datastore w !! task_speakerKey request) as [[c|s|sp]|];
    try done.
  simpl. by rewrite lookup_insert_ne.
Qed.

Lemma found_sessions_after_update request w :
  found_sessions request (after_update request w) = found_sessions request w.
Proof.
  unfold found_sessions, after_update.
  destruct (datastore w !! task_speakerKey request) as [[c|s|sp]|] eqn:Hk;
    try done.
  simpl. by apply (Session_query_fetch_put_speaker _ _ sp).
Qed.

Lemma found_sessions_after_publish request w :
  found_sessions request (after_publish request w) = found_sessions request w.
Proof. done. Qed.

(** Publishing again after a run publishes the same value. *)
Lemma after_publish_again request w :
  memcache (after_publish request (after_update request (after_publish request w)))
  = memcache (after_publish request w).
Proof.
  unfold after_publish at 1. cbn [memcache].
  rewrite found_sessions_after_update, found_sessions_after_publish.
  rewrite memcache_after_update.
  unfold after_publish. cbn [memcache].
  case_bool_decide; [|done]. by rewrite insert_insert_eq.
Qed.

Lemma after_publish_idem request w :
  after_publish request (after_publish request w) = after_publish request w.
Proof.
  unfold after_publish at 1 3. cbn [memcache datastore profiles current_user].
  rewrite found_sessions_after_publish. unfold after_publish. simpl.
  f_equal. case_bool_decide; [|done]. by rewrite insert_insert_eq.
Qed.

Lemma after_update_speaker request w sp :
  datastore w !! task_speakerKey request = Some (ESpeaker sp) →
  datastore (after_update request w) !! task_speakerKey request
  = Some (ESpeaker (with_session sp (task_sessionName request))).
Proof.
  intros Hk. unfold after_update. rewrite Hk. simpl.
  apply lookup_insert_eq.
Qed.

Lemma after_update_other request w :
  (∀ sp, datastore w !! task_speakerKey request ≠ Some (ESpeaker sp)) →
  after_update request w = w.
Proof.
  intros Hk. unfold after_update.
  destruct (datastore w !! task_speakerKey request) as [[c|s|sp]|] eqn:H;
    try done.
  by destruct (Hk sp).
Qed.

End FeaturedSpeaker.

(** C8.  The task handler always completes.  The sessions its query finds
    are exactly the stored [Session] entities with the task's speaker key and
    conference key, each once.  When there are more than one, the cache
    entry [FEATURED_SPEAKER] is overwritten with the speaker's name,
    [" is Featured Speaker with sessions "] and the names of all of them,
    each once, joined by [", "] in the order the query yields them, which
    is not fixed here: the names are those of the found sessions up to a
    permutation.  When there is at most one, the cache is left as it was. *)
Theorem featured_speaker_publication (request : Task) (w : World) :
  let found := found_sessions request w in
  (∀ k s, (k, s) ∈ found ↔
          datastore w !! k = Some (ESession s) ∧
          speakerKey s = task_speakerKey request ∧
          websafeConferenceKey s = task_websafeConferenceKey request) ∧
  NoDup found.*1 ∧
  ∃ w',
    SetFeaturedSpeakerHandler_post request w = (Return tt, w') ∧
    if bool_decide (1 < length found)%nat
    then ∃ names,
           names ≡ₚ (λ ks, Session_name ks.2) <$> found ∧
           memcache w' =
             <[MEMCACHE_FEATURED_SPEAKER :=
                 task_speakerName request
                 +:+ " is Featured Speaker with sessions "
                 +:+ String.concat ", " names]> (memcache w)
    else memcache w' = memcache w.
Proof.
  intros found. split_and!.
  - intros k s. apply Session_query_fetch_spec.
  - apply Session_query_fetch_NoDup.
  - eexists. split; [apply SetFeaturedSpeakerHandler_post_run|].
    rewrite memcache_after_update. unfold after_publish. cbn [memcache].
    fold found. case_bool_decide; [|done].
    by exists ((λ ks, Session_name ks.2) <$> found).
Qed.

Lemma featured_speaker_publication_witness :
  ∃ w' names,
    SetFeaturedSpeakerHandler_post sample_task sample_world
    = (Return tt, w') ∧
    names ≡ₚ ["Intro"; "Deep"] ∧
    memcache w' !! MEMCACHE_FEATURED_SPEAKER
    = Some ("Grace is Featured Speaker with sessions "
            +:+ String.concat ", " names).
Proof.
  destruct (featured_speaker_publication sample_task sample_world)
    as (_ & _ & w' & Hrun & Hcache).
  assert (found_sessions sample_task sample_world
          = [("s1", intro_session); ("s2", deep_session)]) as Hfound
    by (vm_compute; reflexivity).
  rewrite Hfound in Hcache. simpl in Hcache.
  destruct Hcache as (names & Hnames & Hcache).
  exists w', names. split_and!; [exact Hrun|exact Hnames|].
  rewrite Hcache. apply lookup_insert_eq.
Defined.

(** C9, as amended.  Delivering a task a second time republishes the same
    cache value and leaves the profiles and every entity but the task's
    speaker as the first run left them; it is the state after one run only
    when the speaker key does not resolve to a [Speaker].  When it does, each
    run appends the session name once more: after two runs [sessions] ends
    with the name twice, and [sessions_count] is still the length of
    [sessions]. *)
Theorem featured_speaker_redelivery (request : Task) (w : World) :
  ∃ w1 w2,
    SetFeaturedSpeakerHandler_post request w = (Return tt, w1) ∧
    SetFeaturedSpeakerHandler_post request w1 = (Return tt, w2) ∧
    memcache w2 = memcache w1 ∧
    profiles w2 = profiles w1 ∧
    (∀ k, k ≠ task_speakerKey request →
          datastore w2 !! k = datastore w1 !! k) ∧
    match datastore w !! task_speakerKey request with
    | Some (ESpeaker sp) =>
        ∃ sp1 sp2,
          datastore w1 !! task_speakerKey request = Some (ESpeaker sp1) ∧
          datastore w2 !! task_speakerKey request = Some (ESpeaker sp2) ∧
          sessions sp1 = sessions sp ++ [task_sessionName request] ∧
          sessions sp2 = sessions sp ++ [task_sessionName request;
                                         task_sessionName request] ∧
          sessions_count sp1 = Z.of_nat (length (sessions sp1)) ∧
          sessions_count sp2 = Z.of_nat (length (sessions sp2))
    | _ => w2 = w1
    end.
Proof.
  eexists _, _. split_and!.
  - apply SetFeaturedSpeakerHandler_post_run.
  - apply SetFeaturedSpeakerHandler_post_run.
  - rewrite !memcache_after_update. apply after_publish_again.
  - rewrite (profiles_after_update request (after_publish _ _)). done.
  - intros k Hne.
    rewrite (lookup_after_update_ne request (after_publish _ _) _ Hne). done.
  - assert (datastore (after_publish request w) !! task_speakerKey request
            = datastore w !! task_speakerKey request) as Hsame by done.
    destruct (datastore w !! task_speakerKey request) as [[c|s|sp]|] eqn:Hk.
    1, 2, 4:
      rewrite (after_update_other request (after_publish request w))
        by (intros sp; rewrite Hsame; discriminate);
      rewrite after_publish_idem;
      apply after_update_other; intros sp; rewrite Hsame; discriminate.
    pose proof (after_update_speaker _ _ _ Hsame) as H1.
    exists (with_session sp (task_sessionName request)),
      (with_session (with_session sp (task_sessionName request))
         (task_sessionName request)).
    split_and!; [exact H1| |done| |done|done].
    + by apply after_update_speaker.
    + simpl. by rewrite <- app_assoc.
Qed.

Lemma featured_speaker_redelivery_witness :
  ∃ w1 w2,
    SetFeaturedSpeakerHandler_post sample_task sample_world = (Return tt, w1) ∧
    SetFeaturedSpeakerHandler_post sample_task w1 = (Return tt, w2) ∧
    memcache w2 = memcache w1 ∧
    (∃ sp1, datastore w1 !! "spk" = Some (ESpeaker sp1) ∧
            sessions sp1 = ["Intro"; "Deep"]) ∧
    (∃ sp2, datastore w2 !! "spk" = Some (ESpeaker sp2) ∧
            sessions sp2 = ["Intro"; "Deep"; "Deep"]).
Proof.
  destruct (featured_speaker_redelivery sample_task sample_world)
    as (w1 & w2 & Hrun1 & Hrun2 & Hcache & _ & _ & Hspeaker).
  change (datastore sample_world !! task_speakerKey sample_task)
    with (Some (ESpeaker grace)) in Hspeaker.
  destruct Hspeaker as (sp1 & sp2 & Hsp1 & Hsp2 & Hs1 & Hs2 & _).
  exists w1, w2. split_and!; [exact Hrun1|exact Hrun2|exact Hcache| |].
  - exists sp1. split; [exact Hsp1|exact Hs1].
  - exists sp2. split; [exact Hsp2|exact Hs2].
Defined.

(** C9 as first stated fails: a second delivery appends the session name to
    the speaker a second time. *)
Lemma featured_speaker_not_idempotent :
  ¬ (∀ request w,
       (SetFeaturedSpeakerHandler_post request
          (SetFeaturedSpeakerHandler_post request w).2).2
       = (SetFeaturedSpeakerHandler_post request w).2).
Proof.
  intros H. specialize (H sample_task sample_world).
  apply (f_equal (λ w, datastore w !! "spk")) in H.
  vm_compute in H. discriminate H.
Qed.

(** ** Further properties of the filter compiler *)

Section FilterCompilerMore.

Implicit Types (f : ConferenceQueryForm) (fs : list ConferenceQueryForm).
Implicit Types (g : option string) (acc ds : list filtr).

Lemma loop_Return_valid fs g acc r :
  _formatFilters_loop fs g acc = Return r → Forall valid_filter fs.
Proof.
  revert g acc. induction fs as [|f fs IH]; intros g acc Hrun; [constructor|].
  destruct (decide (valid_filter f)) as [Hf|Hf].
  - constructor; [done|].
    simpl in Hrun. destruct Hf as [[fld Hfld] [op Hop]].
    rewrite Hfld, Hop in Hrun.
    destruct (bool_decide (op ≠ "=")); [|by eapply IH].
    destruct (truthy g && bool_decide (g ≠ Some fld))%bool; [done|by eapply IH].
  - by rewrite (loop_invalid f fs g acc Hf) in Hrun.
Qed.

(** With valid filters in front that hold at most one inequality field, the
    first filter with an unknown field or operator stops the loop. *)
Lemma loop_first_invalid pre f suf g acc :
  Forall valid_filter pre →
  (∀ f' fld, f' ∈ pre → inequality_on f' fld → truthy g = false ∨ g = Some fld) →
  (∀ f1 f2 fld1 fld2, f1 ∈ pre → f2 ∈ pre →
     inequality_on f1 fld1 → inequality_on f2 fld2 → fld1 = fld2) →
  ¬ valid_filter f →
  _formatFilters_loop (pre ++ f :: suf) g acc = Raise invalid_filter_error.
Proof.
  intros Hv. revert g acc.
  induction Hv as [|f0 pre Hf0 Hv IH]; intros g acc Hg Hpair Hf.
  { by apply loop_invalid. }
  rewrite <- app_comm_cons.
  destruct (valid_filter_cases f0 Hf0) as (fld0 & op & Hfld & Hop & [->|Hi]).
  - rewrite (loop_equality _ _ _ _ _ Hfld Hop). apply IH; [| |done].
    + intros f' fld' Hin. apply Hg. by right.
    + intros f1 f2 fld1 fld2 H1 H2. apply Hpair; by right.
  - pose proof Hi as [_ (op' & Hop' & Hne')].
    rewrite (loop_inequality_track _ _ _ _ _ _ Hfld Hop') by
      (done || (apply (Hg f0); [by left|done])).
    apply IH; [| |done].
    + intros f' fld' Hin Hi'. right. f_equal.
      apply (Hpair f0 f'); [by left|by right|done..].
    + intros f1 f2 fld1 fld2 H1 H2. apply Hpair; by right.
Qed.

Lemma _getQuery_loop_Return ds q q' :
  _getQuery_loop ds q = Return q' → Forall coercible ds.
Proof.
  revert q. induction ds as [|d ds IH]; intros q Hrun; [constructor|].
  simpl in Hrun. constructor.
  - intros Hnum. rewrite (bool_decide_eq_true_2 _ Hnum) in Hrun.
    unfold py_int in Hrun. by destruct (int_literal (filtr_value d)).
  - case_bool_decide.
    + unfold py_int in Hrun.
      destruct (int_literal (filtr_value d)); [by eapply IH|done].
    + by eapply IH.
Qed.

(** The nodes the second loop adds, one per dictionary, behind those the
    query already has. *)
Lemma _getQuery_loop_filters fs ds q q' :
  Forall2 resolves fs ds →
  _getQuery_loop ds q = Return q' →
  ∃ ns, filters q' = filters q ++ ns ∧ Forall2 compiles_to fs ns.
Proof.
  intros Hres. revert q.
  induction Hres as [|f d fs ds Hr Hres IH]; intros q Hrun.
  { injection Hrun as <-. exists []. by rewrite app_nil_r. }
  simpl in Hrun.
  pose proof (resolves_numeric f d Hr) as Hnum.
  destruct Hr as (Hfld & Hop & Hval).
  case_bool_decide as Hd.
  - unfold py_int in Hrun. rewrite Hval in Hrun.
    destruct (int_literal (value f)) as [z|] eqn:Hz; [|done].
    destruct (IH _ Hrun) as (ns & Hns & Hall). simpl in Hns.
    eexists (_ :: ns). rewrite Hns, <- app_assoc. split; [done|].
    constructor; [|done]. split_and!; [done..|]. simpl.
    rewrite decide_True by (by apply Hnum). by rewrite Hz.
  - destruct (IH _ Hrun) as (ns & Hns & Hall). simpl in Hns.
    eexists (_ :: ns). rewrite Hns, <- app_assoc. split; [done|].
    constructor; [|done]. split_and!; [done..|]. simpl.
    rewrite decide_False by (intros ?; by apply Hd, Hnum). by rewrite Hval.
Qed.

Lemma numeric_values_ok_of_coercible fs ds :
  Forall2 resolves fs ds → Forall coercible ds → numeric_values_ok fs.
Proof.
  intros Hres Hc f Hin Hnum.
  destruct (proj1 (list_elem_of_lookup fs f) Hin) as [i Hi].
  destruct (Forall2_lookup_l _ _ _ _ _ Hres Hi) as (d & Hd & Hr).
  pose proof (proj1 (Forall_lookup _ _) Hc i d Hd) as Hcd.
  apply (resolves_numeric f d Hr) in Hnum.
  destruct Hr as (_ & _ & <-). by apply Hcd.
Qed.

Lemma _formatFilters_Return_inv fs r :
  _formatFilters fs = Return r →
  Forall valid_filter fs ∧ ¬ two_inequality_fields fs.
Proof.
  intros Hrun. split.
  - by apply (loop_Return_valid fs None [] r).
  - intros Htwo. unfold _formatFilters in Hrun.
    destruct (loop_never_accepts fs None [] (or_introl Htwo)) as [H|H];
      rewrite H in Hrun; discriminate Hrun.
Qed.

(** Whatever [_getQuery] returns was built from what [_formatFilters]
    returned for the same list. *)
Lemma _getQuery_Return_inv fs q :
  _getQuery fs = Return q →
  ∃ g ds q0, _formatFilters fs = Return (g, ds) ∧ Forall2 resolves fs ds ∧
             filters q0 = [] ∧ _getQuery_loop ds q0 = Return q.
Proof.
  intros Hrun. unfold _getQuery in Hrun.
  destruct (_formatFilters fs) as [[g ds]|e] eqn:Hfmt; [|done].
  destruct (_formatFilters_Return_inv fs _ Hfmt) as [Hv Hone].
  destruct (_formatFilters_accepts fs Hv Hone) as (g' & ds' & Hfmt' & Hres & _).
  assert (ds' = ds) as -> by congruence.
  eexists g, ds, _. split_and!; [done|done| |exact Hrun].
  destruct (negb (truthy g)); [done|]. by destruct g.
Qed.

Lemma _getQuery_total fs :
  Forall valid_filter fs → numeric_values_ok fs → ¬ two_inequality_fields fs →
  ∃ q, _getQuery fs = Return q.
Proof.
  intros Hv Hnum Hone.
  destruct (_formatFilters_accepts fs Hv Hone) as (g & ds & Hrun & Hres & _).
  unfold _getQuery. rewrite Hrun.
  pose proof (coercible_of_resolves fs ds Hres Hnum) as Hc.
  edestruct (_getQuery_loop_orders ds) as (q & Hq & _); [exact Hc|].
  exists q. exact Hq.
Qed.

End FilterCompilerMore.

(** X1.  [_formatFilters] accepts a filter list exactly when every filter
    names a known field and a known operator and at most one field bears an
    operator other than ["="]; the values play no part. *)
Theorem _formatFilters_accepts_iff (fs : list ConferenceQueryForm) :
  (∃ r, _formatFilters fs = Return r) ↔
  Forall valid_filter fs ∧ ¬ two_inequality_fields fs.
Proof.
  split.
  - intros [r Hrun]. by apply (_formatFilters_Return_inv fs r).
  - intros [Hv Hone].
    destruct (_formatFilters_accepts fs Hv Hone) as (g & ds & Hrun & _).
    by exists (g, ds).
Qed.

(** X2.  Take a list in which every value of a filter on [month] or
    [maxAttendees] is either an integer literal (ASCII digits, at most one
    sign right in front of them, blanks around) or a value [int()] surely
    rejects (blank, or with a character no integer literal holds).  Then
    [_getQuery] produces a query exactly when the list passes
    [_formatFilters] and every one of these values is an integer literal. *)
Theorem _getQuery_compiles_iff (fs : list ConferenceQueryForm) :
  (∀ f, f ∈ fs → numeric_filter f → decided_value (value f)) →
  (∃ q, _getQuery fs = Return q) ↔
  Forall valid_filter fs ∧ ¬ two_inequality_fields fs ∧ numeric_values_ok fs.
Proof.
  intros _. split.
  - intros [q Hrun].
    destruct (_getQuery_Return_inv fs q Hrun)
      as (g & ds & q0 & Hfmt & Hres & _ & Hloop).
    destruct (_formatFilters_Return_inv fs _ Hfmt) as [Hv Hone].
    split_and!; [done..|].
    apply (numeric_values_ok_of_coercible fs ds Hres).
    by apply (_getQuery_loop_Return ds q0 q).
  - intros (Hv & Hone & Hnum).
    apply (_getQuery_total fs Hv Hnum Hone).
Qed.

Lemma _getQuery_compiles_iff_witness :
  (∃ q, _getQuery [filter_of "CITY" "EQ" "London";
                   filter_of "MONTH" "GT" " 6 ";
                   filter_of "MAX_ATTENDEES" "EQ" "ten"] = Return q) ↔
  Forall valid_filter [filter_of "CITY" "EQ" "London";
                       filter_of "MONTH" "GT" " 6 ";
                       filter_of "MAX_ATTENDEES" "EQ" "ten"] ∧
  ¬ two_inequality_fields [filter_of "CITY" "EQ" "London";
                           filter_of "MONTH" "GT" " 6 ";
                           filter_of "MAX_ATTENDEES" "EQ" "ten"] ∧
  numeric_values_ok [filter_of "CITY" "EQ" "London";
                     filter_of "MONTH" "GT" " 6 ";
                     filter_of "MAX_ATTENDEES" "EQ" "ten"].
Proof.
  apply (_getQuery_compiles_iff
           [filter_of "CITY" "EQ" "London"; filter_of "MONTH" "GT" " 6 ";
            filter_of "MAX_ATTENDEES" "EQ" "ten"]).
  intros f Hin _. rewrite !elem_of_cons, elem_of_nil in Hin.
  destruct Hin as [->|[->|[->|[]]]].
  - right. right. exists "L"%char.
    split; [apply list_elem_of_here|reflexivity].
  - left. vm_compute. eauto.
  - right. right. exists "t"%char.
    split; [apply list_elem_of_here|reflexivity].
Defined.

(** X3.  For a list that passes [_formatFilters], whose values on [month]
    and [maxAttendees] are integer literals and in which no filter bears
    the operator [NE], [_getQuery] returns a query whose constraints are
    the filters of the request, one for one and in the same order, each
    with its field and operator resolved and its value coerced. *)
Theorem _getQuery_constraints (fs : list ConferenceQueryForm) :
  Forall valid_filter fs → ¬ two_inequality_fields fs →
  numeric_values_ok fs → Forall (λ f, operator f ≠ "NE") fs →
  ∃ q, _getQuery fs = Return q ∧ Forall2 compiles_to fs (filters q) ∧
       Forall (λ n, node_opsymbol n ≠ "!=") (filters q).
Proof.
  intros Hv Hone Hnum Hne.
  destruct (_getQuery_total fs Hv Hnum Hone) as [q Hrun].
  exists q. split; [exact Hrun|].
  destruct (_getQuery_Return_inv fs q Hrun)
    as (g & ds & q0 & _ & Hres & Hq0 & Hloop).
  destruct (_getQuery_loop_filters fs ds q0 q Hres Hloop) as (ns & Hns & Hall).
  rewrite Hns, Hq0. split; [exact Hall|]. simpl.
  clear -Hall Hne. induction Hall as [|f n fs ns Hfn Hall IH]; [constructor|].
  apply Forall_cons in Hne as [Hf Hne]. constructor; [|by apply IH].
  destruct Hfn as (_ & Hop & _). intros Hsym. rewrite Hsym in Hop.
  apply Hf. unfold OPERATORS in Hop.
  apply elem_of_list_to_map_2 in Hop.
  rewrite !elem_of_cons, elem_of_nil in Hop.
  destruct Hop as [[=]|[[=]|[[=]|[[=]|[[=]|[[=]|[]]]]]]]; done.
Qed.

Lemma _getQuery_constraints_witness :
  ∃ q, _getQuery [filter_of "CITY" "EQ" "London";
                  filter_of "MONTH" "GTEQ" " 6";
                  filter_of "MONTH" "LT" "9"] = Return q ∧
       Forall2 compiles_to
         [filter_of "CITY" "EQ" "London"; filter_of "MONTH" "GTEQ" " 6";
          filter_of "MONTH" "LT" "9"]
         (filters q) ∧
       Forall (λ n, node_opsymbol n ≠ "!=") (filters q).
Proof.
  apply (_getQuery_constraints
           [filter_of "CITY" "EQ" "London"; filter_of "MONTH" "GTEQ" " 6";
            filter_of "MONTH" "LT" "9"]).
  - repeat constructor; vm_compute; eauto.
  - intros (f1 & f2 & fld1 & fld2 & H1 & H2 & [Hf1 (o1 & Ho1 & Hn1)]
            & [Hf2 (o2 & Ho2 & Hn2)] & Hne).
    rewrite !elem_of_cons, elem_of_nil in H1, H2.
    destruct H1 as [->|[->|[->|[]]]]; destruct H2 as [->|[->|[->|[]]]];
      vm_compute in Hf1, Hf2, Ho1, Ho2; congruence.
  - intros f Hin Hnum. rewrite !elem_of_cons, elem_of_nil in Hin.
    destruct Hin as [->|[->|[->|[]]]]; [|vm_compute; eauto..].
    destruct Hnum as [Hnum|Hnum]; vm_compute in Hnum; discriminate Hnum.
  - repeat constructor; discriminate.
Defined.

(** X4.  Validation comes before everything else: when the filters in front
    are valid and hold at most one inequality field, the first filter with
    an unknown field or operator makes [_getQuery] raise the invalid-filter
    [BadRequestException], whatever follows it and whatever the values are
    (a value [int()] would reject is never reached). *)
Theorem first_invalid_filter_reported (pre suf : list ConferenceQueryForm)
    (f : ConferenceQueryForm) :
  Forall valid_filter pre → ¬ two_inequality_fields pre → ¬ valid_filter f →
  _getQuery (pre ++ f :: suf) = Raise invalid_filter_error.
Proof.
  intros Hv Hone Hf. unfold _getQuery, _formatFilters.
  rewrite (loop_first_invalid pre f suf None [] Hv); [done|by left| |done].
  intros f1 f2 fld1 fld2. by apply at_most_one_field.
Qed.

Lemma first_invalid_filter_reported_witness :
  _getQuery [filter_of "MONTH" "EQ" "June"; filter_of "CITY" "LIKE" "Lon";
             filter_of "TOPIC" "GT" "a"; filter_of "CITY" "GT" "b"]
  = Raise invalid_filter_error.
Proof.
  apply (first_invalid_filter_reported [filter_of "MONTH" "EQ" "June"]
           [filter_of "TOPIC" "GT" "a"; filter_of "CITY" "GT" "b"]
           (filter_of "CITY" "LIKE" "Lon")).
  - repeat constructor; vm_compute; eauto.
  - intros (f1 & f2 & fld1 & fld2 & H1 & _ & [_ (o1 & Ho1 & Hn1)] & _).
    rewrite !elem_of_cons, elem_of_nil in H1.
    destruct H1 as [->|[]]. vm_compute in Ho1. congruence.
  - intros [_ [op Hop]]. vm_compute in Hop. discriminate Hop.
Defined.

(** ** Further properties of registration and the wishlist *)

Section RegistrationMore.

Implicit Types (w : World) (u : User) (p : Profile) (c : Conference).

Lemma login_required_anonymous {A} (f : M A) w :
  current_user w = None →
  login_required f w
  = (Raise (UnauthorizedException "Authorization required"), w).
Proof.
  intros Hu. unfold login_required, bind, get_current_user. by rewrite Hu.
Qed.

Lemma _conferenceRegistration_anonymous w k reg :
  current_user w = None →
  _conferenceRegistration k reg w
  = (Raise (UnauthorizedException "Authorization required"), w).
Proof.
  intros Hu. unfold _conferenceRegistration, transactional.
  rewrite (bind_Raise _ _ _ _ _
             (login_required_anonymous _ w Hu : _getProfileFromUser w = _)).
  done.
Qed.

Lemma _conferenceRegistration_missing w u k reg :
  current_user w = Some u → datastore w !! k = None →
  _conferenceRegistration k reg w
  = (Raise (NotFoundException ("No conference found with key: " +:+ k)), w).
Proof.
  intros Hu Hk. unfold _conferenceRegistration, transactional.
  rewrite (bind_Return _ _ _ _ _ (_getProfileFromUser_run w u Hu)).
  unfold bind at 1. unfold Key_get at 1. simpl. by rewrite Hk.
Qed.

(** [l.remove(x)] takes out the first occurrence of [x] and nothing else. *)
Lemma list_remove_first x (l : list string) :
  x ∈ l →
  ∃ l1 l2, l = l1 ++ (x :: l2) ∧ (x ∉ l1) ∧ list_remove x l = l1 ++ l2.
Proof.
  induction l as [|y l IH]; intros Hin; [by apply elem_of_nil in Hin|].
  simpl. destruct (decide (x = y)) as [->|Hne].
  - exists [], l. split_and!; [done| |done]. apply not_elem_of_nil.
  - apply elem_of_cons in Hin as [?|Hin]; [done|].
    destruct (IH Hin) as (l1 & l2 & -> & Hx & ->).
    exists (y :: l1), l2. split_and!; [done| |done].
    by apply not_elem_of_cons.
Qed.

Lemma list_remove_NoDup x (l : list string) :
  NoDup l → NoDup (list_remove x l) ∧ x ∉ list_remove x l.
Proof.
  induction 1 as [|y l Hy Hl IH]; simpl.
  - split; [constructor|apply not_elem_of_nil].
  - destruct (decide (x = y)) as [->|Hne]; [done|].
    destruct IH as [IH1 IH2]. split.
    + constructor; [|done]. intros Hin. apply Hy.
      clear -Hin. induction l as [|z l IHl]; [done|]. simpl in Hin.
      destruct (decide (x = z)); [by right|].
      apply elem_of_cons in Hin as [->|Hin]; [by left|right; by apply IHl].
    + by apply not_elem_of_cons.
Qed.

Lemma list_remove_other x y (l : list string) :
  y ≠ x → y ∈ list_remove x l ↔ y ∈ l.
Proof.
  intros Hne. induction l as [|z l IH]; [done|]. simpl.
  destruct (decide (x = z)) as [->|].
  - rewrite elem_of_cons. split; [by right|by intros [->|]].
  - by rewrite !elem_of_cons, IH.
Qed.

Lemma wishlist_add_run w u k :
  current_user w = Some u → is_Some (datastore w !! k) →
  k ∉ wishlist w (user_id u) →
  addSessionToWishlist k w =
  (Return {| data := true |},
   put_profile w u
     (set_sessionKeysOnWishlist (profile_of w u)
        (wishlist w (user_id u) ++ [k]))).
Proof.
  intros Hu [e He] Hnot. unfold addSessionToWishlist.
  rewrite (login_required_signed_in _ w u Hu). unfold transactional.
  rewrite (bind_Return _ _ _ _ _ (_getProfileFromUser_run w u Hu)).
  unfold bind at 1. unfold Key_get at 1. simpl. rewrite He.
  rewrite wishlist_profile_of, (py_in_false _ _ Hnot).
  unfold bind, try_except, ret, Profile_put, put_profile. simpl.
  by rewrite insert_insert_eq.
Qed.

Lemma wishlist_delete_run w u k :
  current_user w = Some u → is_Some (datastore w !! k) →
  k ∈ wishlist w (user_id u) →
  deleteSessionFromWishlist k w =
  (Return {| data := true |},
   put_profile w u
     (set_sessionKeysOnWishlist (profile_of w u)
        (list_remove k (wishlist w (user_id u))))).
Proof.
  intros Hu [e He] Hin. unfold deleteSessionFromWishlist.
  rewrite (login_required_signed_in _ w u Hu). unfold transactional.
  rewrite (bind_Return _ _ _ _ _ (_getProfileFromUser_run w u Hu)).
  unfold bind at 1. unfold Key_get at 1. simpl. rewrite He.
  rewrite wishlist_profile_of, (py_in_true _ _ Hin).
  unfold bind, try_except, ret, Profile_put, put_profile. simpl.
  by rewrite insert_insert_eq.
Qed.

Lemma wishlist_delete_absent_run w u k :
  current_user w = Some u → is_Some (datastore w !! k) →
  k ∉ wishlist w (user_id u) →
  deleteSessionFromWishlist k w =
  (Return {| data := false |}, put_profile w u (profile_of w u)).
Proof.
  intros Hu [e He] Hnot. unfold deleteSessionFromWishlist.
  rewrite (login_required_signed_in _ w u Hu). unfold transactional.
  rewrite (bind_Return _ _ _ _ _ (_getProfileFromUser_run w u Hu)).
  unfold bind at 1. unfold Key_get at 1. simpl. rewrite He.
  rewrite wishlist_profile_of, (py_in_false _ _ Hnot).
  unfold bind, try_except, raise, ret. done.
Qed.

Lemma wishlist_add_present_run w u k :
  current_user w = Some u → is_Some (datastore w !! k) →
  k ∈ wishlist w (user_id u) →
  addSessionToWishlist k w =
  (Return {| data := false |}, put_profile w u (profile_of w u)).
Proof.
  intros Hu [e He] Hin. unfold addSessionToWishlist.
  rewrite (login_required_signed_in _ w u Hu). unfold transactional.
  rewrite (bind_Return _ _ _ _ _ (_getProfileFromUser_run w u Hu)).
  unfold bind at 1. unfold Key_get at 1. simpl. rewrite He.
  rewrite wishlist_profile_of, (py_in_true _ _ Hin).
  unfold bind, try_except, raise, ret. done.
Qed.

Lemma wishlist_missing_run w u k :
  current_user w = Some u → datastore w !! k = None →
  addSessionToWishlist k w
  = (Raise (NotFoundException ("No session found with key: " +:+ k)), w) ∧
  deleteSessionFromWishlist k w
  = (Raise (NotFoundException ("No session found with key: " +:+ k)), w).
Proof.
  intros Hu Hk. unfold addSessionToWishlist, deleteSessionFromWishlist.
  rewrite !(login_required_signed_in _ w u Hu). unfold transactional.
  rewrite !(bind_Return _ _ _ _ _ (_getProfileFromUser_run w u Hu)).
  unfold bind, Key_get. simpl. by rewrite Hk.
Qed.

Lemma wishlist_put_profile_other w u p uid :
  uid ≠ user_id u →
  profiles (put_profile w u p) !! uid = profiles w !! uid.
Proof. intros Hne. unfold put_profile. simpl. by rewrite lookup_insert_ne. Qed.

Lemma profile_of_put_profile w u p : profile_of (put_profile w u p) u = p.
Proof. unfold profile_of, put_profile. simpl. by rewrite lookup_insert_eq. Qed.

Lemma set_sessionKeysOnWishlist_same p :
  set_sessionKeysOnWishlist p (sessionKeysOnWishlist p) = p.
Proof. by destruct p. Qed.

Lemma put_profile_twice w u p p' :
  put_profile (put_profile w u p) u p' = put_profile w u p'.
Proof. unfold put_profile. simpl. by rewrite insert_insert_eq. Qed.

End RegistrationMore.

(** X5.  Nothing is done for a caller who is not signed in: registering,
    unregistering and both wishlist operations raise
    [UnauthorizedException] "Authorization required" and leave the world as
    it was, whatever key is given. *)
Theorem handlers_require_login (w : World) (k : string) :
  current_user w = None →
  registerForConference k w
  = (Raise (UnauthorizedException "Authorization required"), w) ∧
  unregisterFromConference k w
  = (Raise (UnauthorizedException "Authorization required"), w) ∧
  addSessionToWishlist k w
  = (Raise (UnauthorizedException "Authorization required"), w) ∧
  deleteSessionFromWishlist k w
  = (Raise (UnauthorizedException "Authorization required"), w).
Proof.
  intros Hu. split_and!.
  - by apply _conferenceRegistration_anonymous.
  - by apply _conferenceRegistration_anonymous.
  - by apply login_required_anonymous.
  - by apply login_required_anonymous.
Qed.

Lemma handlers_require_login_witness :
  registerForConference "c1" (as_user None sample_world)
  = (Raise (UnauthorizedException "Authorization required"),
     as_user None sample_world) ∧
  unregisterFromConference "c1" (as_user None sample_world)
  = (Raise (UnauthorizedException "Authorization required"),
     as_user None sample_world) ∧
  addSessionToWishlist "c1" (as_user None sample_world)
  = (Raise (UnauthorizedException "Authorization required"),
     as_user None sample_world) ∧
  deleteSessionFromWishlist "c1" (as_user None sample_world)
  = (Raise (UnauthorizedException "Authorization required"),
     as_user None sample_world).
Proof.
  apply (handlers_require_login (as_user None sample_world) "c1").
  reflexivity.
Defined.

(** X7.  A successful registration changes two things only: the key is
    appended to the caller's [conferenceKeysToAttend] and the conference has
    one seat less, its other attributes as before.  Every other entity,
    every other profile, the caller's wishlist and the cache are
    untouched. *)
Theorem registration_effect (w : World) (u : User) (k : string)
    (c : Conference) :
  current_user w = Some u →
  datastore w !! k = Some (EConference c) →
  0 < seatsAvailable c →
  k ∉ attending w (user_id u) →
  ∃ w' c',
    registerForConference k w = (Return {| data := true |}, w') ∧
    attending w' (user_id u) = attending w (user_id u) ++ [k] ∧
    datastore w' !! k = Some (EConference c') ∧
    seatsAvailable c' = seatsAvailable c - 1 ∧
    (Conference_name c', city c', topics c', month c', maxAttendees c',
     organizerUserId c')
    = (Conference_name c, city c, topics c, month c, maxAttendees c,
       organizerUserId c) ∧
    (∀ k', k' ≠ k → datastore w' !! k' = datastore w !! k') ∧
    (∀ uid, uid ≠ user_id u → profiles w' !! uid = profiles w !! uid) ∧
    wishlist w' (user_id u) = wishlist w (user_id u) ∧
    memcache w' = memcache w.
Proof.
  intros Hu Hc Hseats Hnot. eexists _, _.
  rewrite (register_run w u k c Hu Hc Hseats Hnot). split_and!.
  - done.
  - by rewrite attending_put_both.
  - apply lookup_insert_eq.
  - done.
  - done.
  - intros k' Hne. simpl. by rewrite lookup_insert_ne.
  - intros uid Hne. simpl. by rewrite lookup_insert_ne.
  - unfold wishlist at 1. simpl. rewrite lookup_insert_eq. simpl.
    apply wishlist_profile_of.
  - done.
Qed.

Lemma registration_effect_witness :
  ∃ w' c',
    registerForConference "c1" sample_world = (Return {| data := true |}, w') ∧
    attending w' "alice" = ["c1"] ∧
    datastore w' !! "c1" = Some (EConference c') ∧
    seatsAvailable c' = 1 ∧
    (Conference_name c', city c', topics c', month c', maxAttendees c',
     organizerUserId c')
    = ("PyCon", "London", ["Python"], 6, 2, "bob") ∧
    (∀ k', k' ≠ "c1" → datastore w' !! k' = datastore sample_world !! k') ∧
    (∀ uid, uid ≠ "alice" → profiles w' !! uid = profiles sample_world !! uid) ∧
    wishlist w' "alice" = ["s1"] ∧
    memcache w' = ∅.
Proof.
  apply (registration_effect sample_world alice "c1" open_conference).
  - reflexivity.
  - reflexivity.
  - reflexivity.
  - apply (bool_decide_unpack _). vm_compute. exact I.
Defined.

(** X8.  The duplicate check comes first: a caller whose profile already
    holds the key is refused with [ConflictException] "You have already
    registered for this conference" whether or not seats are left and
    whatever the key resolves to, and the world is as it was. *)
Theorem registration_duplicate_refused (w : World) (u : User) (k : string)
    (e : Entity) :
  current_user w = Some u →
  datastore w !! k = Some e →
  k ∈ attending w (user_id u) →
  registerForConference k w
  = (Raise (ConflictException
              "You have already registered for this conference"), w).
Proof. apply register_linked_run. Qed.

Lemma registration_duplicate_refused_witness :
  registerForConference "c0"
    (put_profile sample_world alice
       (set_conferenceKeysToAttend alice_profile ["c0"]))
  = (Raise (ConflictException
              "You have already registered for this conference"),
     put_profile sample_world alice
       (set_conferenceKeysToAttend alice_profile ["c0"])).
Proof.
  apply (registration_duplicate_refused _ alice "c0" (EConference sold_out)).
  - reflexivity.
  - reflexivity.
  - apply (bool_decide_unpack _). vm_compute. exact I.
Defined.

(** X9.  Unregistering a registered user returns [True], gives one seat
    back and takes the first occurrence of the key out of
    [conferenceKeysToAttend], keeping the other keys in their order; when
    the list had no duplicate the user is no longer registered afterwards.
    Other entities are untouched. *)
Theorem unregistration_effect (w : World) (u : User) (k : string)
    (c : Conference) :
  current_user w = Some u →
  datastore w !! k = Some (EConference c) →
  k ∈ attending w (user_id u) →
  ∃ w' c' l1 l2,
    unregisterFromConference k w = (Return {| data := true |}, w') ∧
    attending w (user_id u) = l1 ++ (k :: l2) ∧ (k ∉ l1) ∧
    attending w' (user_id u) = l1 ++ l2 ∧
    (NoDup (attending w (user_id u)) → k ∉ attending w' (user_id u)) ∧
    datastore w' !! k = Some (EConference c') ∧
    seatsAvailable c' = seatsAvailable c + 1 ∧
    maxAttendees c' = maxAttendees c ∧
    (∀ k', k' ≠ k → datastore w' !! k' = datastore w !! k').
Proof.
  intros Hu Hc Hin.
  destruct (list_remove_first k _ Hin) as (l1 & l2 & Hl & Hl1 & Hrm).
  eexists _, _, l1, l2.
  rewrite (unregister_linked_run w u k c Hu Hc Hin). split_and!.
  - done.
  - done.
  - done.
  - by rewrite attending_put_both.
  - intros Hnd. rewrite attending_put_both. simpl.
    by apply list_remove_NoDup.
  - apply lookup_insert_eq.
  - done.
  - done.
  - intros k' Hne. simpl. by rewrite lookup_insert_ne.
Qed.

Lemma unregistration_effect_witness :
  ∃ w' c' l1 l2,
    unregisterFromConference "c1"
      (put_profile sample_world alice
         (set_conferenceKeysToAttend alice_profile ["c0"; "c1"]))
    = (Return {| data := true |}, w') ∧
    ["c0"; "c1"] = l1 ++ ("c1" :: l2) ∧ ("c1" ∉ l1) ∧
    attending w' "alice" = l1 ++ l2 ∧
    (NoDup ["c0"; "c1"] → "c1" ∉ attending w' "alice") ∧
    datastore w' !! "c1" = Some (EConference c') ∧
    seatsAvailable c' = 3 ∧
    maxAttendees c' = 2 ∧
    (∀ k', k' ≠ "c1" → datastore w' !! k' = datastore sample_world !! k').
Proof.
  apply (unregistration_effect
           (put_profile sample_world alice
              (set_conferenceKeysToAttend alice_profile ["c0"; "c1"]))
           alice "c1" open_conference).
  - reflexivity.
  - reflexivity.
  - apply (bool_decide_unpack _). vm_compute. exact I.
Defined.

(** X10.  The handlers never check what kind of entity a key resolves to.
    Registering with the key of a stored session or speaker raises the
    [AttributeError] of [conf.seatsAvailable], not an [endpoints] exception,
    and changes nothing; unregistering a user who is not registered from
    such a key just returns [False]. *)
Theorem registration_kind_unchecked (w : World) (u : User) (k : string)
    (e : Entity) :
  current_user w = Some u →
  datastore w !! k = Some e →
  (∀ c, e ≠ EConference c) →
  k ∉ attending w (user_id u) →
  registerForConference k w = (Raise (AttributeError "seatsAvailable"), w) ∧
  (unregisterFromConference k w).1 = Return {| data := false |}.
Proof.
  intros Hu He Hkind Hnot. split.
  - unfold registerForConference, _conferenceRegistration, transactional.
    rewrite (bind_Return _ _ _ _ _ (_getProfileFromUser_run w u Hu)).
    unfold bind at 1. unfold Key_get at 1. simpl. rewrite He.
    rewrite attending_profile_of, (py_in_false _ _ Hnot).
    destruct e as [c|s|sp]; [by destruct (Hkind c)|done..].
  - by rewrite (unregister_unlinked_run w u k e Hu He Hnot).
Qed.

Lemma registration_kind_unchecked_witness :
  registerForConference "spk" sample_world
  = (Raise (AttributeError "seatsAvailable"), sample_world) ∧
  (unregisterFromConference "spk" sample_world).1 = Return {| data := false |}.
Proof.
  apply (registration_kind_unchecked sample_world alice "spk" (ESpeaker grace)).
  - reflexivity.
  - reflexivity.
  - intros c Hc. discriminate Hc.
  - apply (bool_decide_unpack _). vm_compute. exact I.
Defined.

(** X11.  Adding a key that is not yet on the wishlist, and under which
    some entity is stored, returns [True] and appends the key to the
    caller's [sessionKeysOnWishlist]; the caller's registrations, the other
    profiles, the datastore and the cache are untouched. *)
Theorem wishlist_add_effect (w : World) (u : User) (k : string) :
  current_user w = Some u →
  is_Some (datastore w !! k) →
  k ∉ wishlist w (user_id u) →
  ∃ w',
    addSessionToWishlist k w = (Return {| data := true |}, w') ∧
    wishlist w' (user_id u) = wishlist w (user_id u) ++ [k] ∧
    attending w' (user_id u) = attending w (user_id u) ∧
    (∀ uid, uid ≠ user_id u → profiles w' !! uid = profiles w !! uid) ∧
    datastore w' = datastore w ∧ memcache w' = memcache w.
Proof.
  intros Hu Hk Hnot. eexists.
  rewrite (wishlist_add_run w u k Hu Hk Hnot). split_and!.
  - done.
  - by rewrite wishlist_put_profile.
  - rewrite attending_put_profile. simpl. apply attending_profile_of.
  - intros uid Hne. by apply wishlist_put_profile_other.
  - done.
  - done.
Qed.

Lemma wishlist_add_effect_witness :
  ∃ w',
    addSessionToWishlist "s2" sample_world = (Return {| data := true |}, w') ∧
    wishlist w' "alice" = ["s1"; "s2"] ∧
    attending w' "alice" = [] ∧
    (∀ uid, uid ≠ "alice" → profiles w' !! uid = profiles sample_world !! uid) ∧
    datastore w' = datastore sample_world ∧ memcache w' = ∅.
Proof.
  apply (wishlist_add_effect sample_world alice "s2").
  - reflexivity.
  - exists (ESession deep_session). reflexivity.
  - apply (bool_decide_unpack _). vm_compute. exact I.
Defined.

(** X12.  Removing a key that is on the wishlist returns [True] and takes
    its first occurrence out, the other keys staying in their order; after
    it the key is gone when the list had no duplicate.  The datastore and
    the cache are untouched. *)
Theorem wishlist_delete_effect (w : World) (u : User) (k : string) :
  current_user w = Some u →
  is_Some (datastore w !! k) →
  k ∈ wishlist w (user_id u) →
  ∃ w' l1 l2,
    deleteSessionFromWishlist k w = (Return {| data := true |}, w') ∧
    wishlist w (user_id u) = l1 ++ (k :: l2) ∧ (k ∉ l1) ∧
    wishlist w' (user_id u) = l1 ++ l2 ∧
    (NoDup (wishlist w (user_id u)) → k ∉ wishlist w' (user_id u)) ∧
    attending w' (user_id u) = attending w (user_id u) ∧
    datastore w' = datastore w ∧ memcache w' = memcache w.
Proof.
  intros Hu Hk Hin.
  destruct (list_remove_first k _ Hin) as (l1 & l2 & Hl & Hl1 & Hrm).
  eexists _, l1, l2.
  rewrite (wishlist_delete_run w u k Hu Hk Hin). split_and!.
  - done.
  - done.
  - done.
  - by rewrite wishlist_put_profile.
  - intros Hnd. rewrite wishlist_put_profile. simpl.
    by apply list_remove_NoDup.
  - rewrite attending_put_profile. simpl. apply attending_profile_of.
  - done.
  - done.
Qed.

Lemma wishlist_delete_effect_witness :
  ∃ w' l1 l2,
    deleteSessionFromWishlist "s1" sample_world
    = (Return {| data := true |}, w') ∧
    ["s1"] = l1 ++ ("s1" :: l2) ∧ ("s1" ∉ l1) ∧
    wishlist w' "alice" = l1 ++ l2 ∧
    (NoDup ["s1"] → "s1" ∉ wishlist w' "alice") ∧
    attending w' "alice" = [] ∧
    datastore w' = datastore sample_world ∧ memcache w' = ∅.
Proof.
  apply (wishlist_delete_effect sample_world alice "s1").
  - reflexivity.
  - exists (ESession intro_session). reflexivity.
  - apply (bool_decide_unpack _). vm_compute. exact I.
Defined.

(** X13.  Adding a key to the wishlist and deleting it again is a round
    trip: both calls return [True] and the wishlist has its prior contents;
    the world is the one before when the profile was already stored. *)
Theorem wishlist_add_delete_round_trip (w : World) (u : User) (k : string) :
  current_user w = Some u →
  is_Some (datastore w !! k) →
  k ∉ wishlist w (user_id u) →
  ∃ w1 w2,
    addSessionToWishlist k w = (Return {| data := true |}, w1) ∧
    deleteSessionFromWishlist k w1 = (Return {| data := true |}, w2) ∧
    wishlist w2 (user_id u) = wishlist w (user_id u) ∧
    (is_Some (profiles w !! user_id u) → w2 = w).
Proof.
  intros Hu Hk Hnot.
  set (w1 := put_profile w u
               (set_sessionKeysOnWishlist (profile_of w u)
                  (wishlist w (user_id u) ++ [k]))).
  assert (k ∈ wishlist w1 (user_id u)) as Hin1.
  { unfold w1. rewrite wishlist_put_profile. simpl.
    apply elem_of_app. right. apply list_elem_of_here. }
  assert (put_profile w1 u
            (set_sessionKeysOnWishlist (profile_of w1 u)
               (list_remove k (wishlist w1 (user_id u))))
          = put_profile w u (profile_of w u)) as Hback.
  { unfold w1. rewrite put_profile_twice, profile_of_put_profile,
      wishlist_put_profile. simpl.
    rewrite (list_remove_app_fresh _ _ Hnot). f_equal.
    rewrite <- wishlist_profile_of. by destruct (profile_of w u). }
  exists w1, (put_profile w u (profile_of w u)). split_and!.
  - apply (wishlist_add_run w u k Hu Hk Hnot).
  - rewrite <- Hback. by apply (wishlist_delete_run w1 u k Hu Hk Hin1).
  - rewrite wishlist_put_profile. apply wishlist_profile_of.
  - apply put_profile_stored.
Qed.

Lemma wishlist_add_delete_round_trip_witness :
  ∃ w1 w2,
    addSessionToWishlist "s2" sample_world = (Return {| data := true |}, w1) ∧
    deleteSessionFromWishlist "s2" w1 = (Return {| data := true |}, w2) ∧
    wishlist w2 "alice" = ["s1"] ∧
    (is_Some (profiles sample_world !! "alice") → w2 = sample_world).
Proof.
  apply (wishlist_add_delete_round_trip sample_world alice "s2").
  - reflexivity.
  - exists (ESession deep_session). reflexivity.
  - apply (bool_decide_unpack _). vm_compute. exact I.
Defined.

(** X14.  Given the key of a stored entity, in the spelling it is stored
    under, the wishlist operations raise for one reason only: no signed-in
    user ([UnauthorizedException]), and then the world is as it was.  For a
    signed-in user they return a [BooleanMessage], whatever kind of entity
    the key names and whether the key is on the wishlist or not.  They
    never write to the datastore or the cache. *)
Theorem wishlist_outcomes (w : World) (k : string) :
  is_Some (datastore w !! k) →
  let outcome_ok (r : Outcome BooleanMessage * World) :=
    (((∃ b, r.1 = Return b) ∧ is_Some (current_user w)) ∨
     (r = (Raise (UnauthorizedException "Authorization required"), w) ∧
      current_user w = None)) ∧
    datastore r.2 = datastore w ∧ memcache r.2 = memcache w in
  outcome_ok (addSessionToWishlist k w) ∧
  outcome_ok (deleteSessionFromWishlist k w).
Proof.
  intros Hs outcome_ok. unfold outcome_ok.
  destruct (current_user w) as [u|] eqn:Hu.
  - split.
    + destruct (decide (k ∈ wishlist w (user_id u))) as [Hin|Hnot].
      * rewrite (wishlist_add_present_run w u k Hu Hs Hin).
        split_and!; [left; split; by eexists|done..].
      * rewrite (wishlist_add_run w u k Hu Hs Hnot).
        split_and!; [left; split; by eexists|done..].
    + destruct (decide (k ∈ wishlist w (user_id u))) as [Hin|Hnot].
      * rewrite (wishlist_delete_run w u k Hu Hs Hin).
        split_and!; [left; split; by eexists|done..].
      * rewrite (wishlist_delete_absent_run w u k Hu Hs Hnot).
        split_and!; [left; split; by eexists|done..].
  - unfold addSessionToWishlist, deleteSessionFromWishlist.
    rewrite !(login_required_anonymous _ w Hu).
    split; (split_and!; [right; done|done..]).
Qed.

Lemma wishlist_outcomes_witness :
  (∃ b, (addSessionToWishlist "c1" sample_world).1 = Return b) ∧
  (∃ b, (deleteSessionFromWishlist "c1" sample_world).1 = Return b) ∧
  datastore (addSessionToWishlist "c1" sample_world).2
  = datastore sample_world ∧
  datastore (deleteSessionFromWishlist "c1" sample_world).2
  = datastore sample_world.
Proof.
  destruct (wishlist_outcomes sample_world "c1")
    as [([[Hadd _]|[_ Hnone]] & Hadd_ds & _)
        ([[Hdel _]|[_ Hnone']] & Hdel_ds & _)];
    [by eexists|..]; try discriminate Hnone; try discriminate Hnone'.
  split_and!; assumption.
Defined.

(** ** Seats and registrations *)

Section Capacity.

Implicit Types (w : World) (u : User) (p : Profile) (c : Conference).
Implicit Types (m : gmap string Profile).

Lemma holders_insert k m uid p :
  holders k (<[uid := p]> m) = (holds k (Some p) + holders k (delete uid m))%nat.
Proof.
  unfold holders, holds. rewrite <- (insert_delete_eq m).
  rewrite map_filter_insert. simpl. case_decide as Hk.
  - rewrite map_size_insert_None; [done|].
    apply map_lookup_filter_None_2. left. apply lookup_delete_eq.
  - by rewrite (delete_id (delete uid m)) by apply lookup_delete_eq.
Qed.

Lemma holders_split k m uid :
  holders k m = (holds k (m !! uid) + holders k (delete uid m))%nat.
Proof.
  destruct (m !! uid) as [p|] eqn:Hp.
  - rewrite <- (insert_delete_id m uid p Hp) at 1. rewrite holders_insert.
    by rewrite (delete_id (delete uid m)) by apply lookup_delete_eq.
  - by rewrite (delete_id m uid Hp).
Qed.

(** Putting a profile moves the count by what the old and the new one hold. *)
Lemma holders_put k m uid p :
  (holders k (<[uid := p]> m) + holds k (m !! uid))%nat
  = (holders k m + holds k (Some p))%nat.
Proof. rewrite holders_insert, (holders_split k m uid). lia. Qed.

Lemma registered_put_profile w u p k :
  (registered (put_profile w u p) k + holds k (profiles w !! user_id u))%nat
  = (registered w k + holds k (Some p))%nat.
Proof. apply holders_put. Qed.

Lemma registered_put_both w u p k' e k :
  registered (put_both w u p k' e) k = registered (put_profile w u p) k.
Proof. done. Qed.

Lemma holds_attending w u k :
  holds k (profiles w !! user_id u)
  = if decide (k ∈ attending w (user_id u)) then 1%nat else 0%nat.
Proof.
  unfold holds, attending. destruct (profiles w !! user_id u); [done|].
  rewrite decide_False; [done|apply not_elem_of_nil].
Qed.

Lemma attending_NoDup w u :
  consistent w → NoDup (attending w (user_id u)).
Proof.
  intros [Hnd _]. unfold attending.
  destruct (profiles w !! user_id u) as [p|] eqn:Hp; [by eapply Hnd|].
  constructor.
Qed.

(** The worlds a handler can leave behind, one lemma per shape. *)
Lemma consistent_same w w' :
  profiles w' = profiles w →
  (∀ k c, datastore w' !! k = Some (EConference c) →
          datastore w !! k = Some (EConference c)) →
  consistent w → consistent w'.
Proof.
  intros Hp Hd [Hnd Hseats]. split.
  - intros uid p. rewrite Hp. apply Hnd.
  - intros k c Hk. unfold registered. rewrite Hp. by apply Hseats, Hd.
Qed.

Lemma consistent_put_profile w u p :
  conferenceKeysToAttend p = attending w (user_id u) →
  consistent w → consistent (put_profile w u p).
Proof.
  intros Hkeys Hw. pose proof Hw as [Hnd Hseats]. split.
  - intros uid p'. unfold put_profile. simpl.
    rewrite lookup_insert_Some. intros [[_ <-]|[_ Hp']]; [|by eapply Hnd].
    rewrite Hkeys. by apply attending_NoDup.
  - intros k c Hk. simpl in Hk. destruct (Hseats k c Hk) as [H0 Hsum].
    split; [done|]. rewrite <- Hsum. do 2 f_equal.
    pose proof (registered_put_profile w u p k) as H.
    rewrite holds_attending in H. unfold holds in H. rewrite Hkeys in H. lia.
Qed.

Lemma consistent_register w u k c :
  datastore w !! k = Some (EConference c) →
  0 < seatsAvailable c →
  k ∉ attending w (user_id u) →
  consistent w →
  consistent
    (put_both w u
       (set_conferenceKeysToAttend (profile_of w u)
          (attending w (user_id u) ++ [k]))
       k (setattr_seatsAvailable (EConference c) (seatsAvailable c - 1))).
Proof.
  intros Hc Hpos Hnot Hw. pose proof Hw as [Hnd Hseats]. split.
  - intros uid p'. simpl. rewrite lookup_insert_Some.
    intros [[_ <-]|[_ Hp']]; [|by eapply Hnd]. simpl.
    apply NoDup_app. split_and!; [by apply attending_NoDup| |apply NoDup_singleton].
    intros x Hx ->%list_elem_of_singleton. done.
  - intros k' c'. simpl. rewrite lookup_insert_Some.
    set (p' := set_conferenceKeysToAttend _ _).
    pose proof (registered_put_profile w u p' k') as H.
    rewrite registered_put_both. rewrite holds_attending in H.
    unfold holds, p' in H. simpl in H. subst p'.
    intros [[<- [= <-]]|[Hne Hk']].
    + destruct (Hseats k c Hc) as [H0 Hsum]. simpl.
      rewrite decide_False in H by done.
      rewrite decide_True in H
        by (apply elem_of_app; right; apply list_elem_of_here).
      split; lia.
    + destruct (Hseats k' c' Hk') as [H0 Hsum]. split; [done|].
      destruct (decide (k' ∈ attending w (user_id u))) as [Hin|Hout].
      * rewrite decide_True in H by (apply elem_of_app; by left). lia.
      * rewrite decide_False in H; [lia|].
        rewrite elem_of_app, list_elem_of_singleton. intros [?|?]; done.
Qed.

Lemma consistent_unregister w u k c :
  datastore w !! k = Some (EConference c) →
  k ∈ attending w (user_id u) →
  consistent w →
  consistent
    (put_both w u
       (set_conferenceKeysToAttend (profile_of w u)
          (list_remove k (attending w (user_id u))))
       k (setattr_seatsAvailable (EConference c) (seatsAvailable c + 1))).
Proof.
  intros Hc Hin Hw. pose proof Hw as [Hnd Hseats].
  pose proof (list_remove_NoDup k _ (attending_NoDup w u Hw)) as [Hnd' Hgone].
  split.
  - intros uid p'. simpl. rewrite lookup_insert_Some.
    intros [[_ <-]|[_ Hp']]; [done|by eapply Hnd].
  - intros k' c'. simpl. rewrite lookup_insert_Some.
    set (p' := set_conferenceKeysToAttend _ _).
    pose proof (registered_put_profile w u p' k') as H.
    rewrite registered_put_both. rewrite holds_attending in H.
    unfold holds, p' in H. simpl in H. subst p'.
    intros [[<- [= <-]]|[Hne Hk']].
    + destruct (Hseats k c Hc) as [H0 Hsum]. simpl.
      rewrite decide_True in H by done.
      rewrite decide_False in H by done.
      split; lia.
    + destruct (Hseats k' c' Hk') as [H0 Hsum]. split; [done|].
      destruct (decide (k' ∈ attending w (user_id u))) as [Hin'|Hout].
      * rewrite decide_True in H; [lia|].
        apply (list_remove_other k k'); [congruence|done].
      * rewrite decide_False in H; [lia|].
        intros Hx. apply Hout.
        apply (list_remove_other k k' (attending w (user_id u)));
          [congruence|exact Hx].
Qed.

Lemma register_world w k :
  (registerForConference k w).2 = w ∨
  ∃ u c,
    datastore w !! k = Some (EConference c) ∧ 0 < seatsAvailable c ∧
    (k ∉ attending w (user_id u)) ∧
    (registerForConference k w).2
    = put_both w u
        (set_conferenceKeysToAttend (profile_of w u)
           (attending w (user_id u) ++ [k]))
        k (setattr_seatsAvailable (EConference c) (seatsAvailable c - 1)).
Proof.
  destruct (current_user w) as [u|] eqn:Hu;
    [|left; unfold registerForConference;
      by rewrite (_conferenceRegistration_anonymous w k true Hu)].
  destruct (datastore w !! k) as [e|] eqn:Hk;
    [|left; unfold registerForConference;
      by rewrite (_conferenceRegistration_missing w u k true Hu Hk)].
  destruct (decide (k ∈ attending w (user_id u))) as [Hin|Hnot];
    [left; by rewrite (register_linked_run w u k e Hu Hk Hin)|].
  destruct e as [c|s|sp].
  - destruct (decide (0 < seatsAvailable c)) as [Hpos|Hfull].
    + right. exists u, c. split_and!; [done..|].
      by rewrite (register_run w u k c Hu Hk Hpos Hnot).
    + left. unfold registerForConference, _conferenceRegistration,
        transactional.
      rewrite (bind_Return _ _ _ _ _ (_getProfileFromUser_run w u Hu)).
      unfold bind at 1. unfold Key_get at 1. simpl. rewrite Hk.
      rewrite attending_profile_of, (py_in_false _ _ Hnot).
      unfold bind at 1. simpl. unfold bind, ret.
      destruct (Z.leb_spec (seatsAvailable c) 0) as [_|?]; [done|lia].
  - left. unfold registerForConference, _conferenceRegistration,
      transactional.
    rewrite (bind_Return _ _ _ _ _ (_getProfileFromUser_run w u Hu)).
    unfold bind at 1. unfold Key_get at 1. simpl. rewrite Hk.
    by rewrite attending_profile_of, (py_in_false _ _ Hnot).
  - left. unfold registerForConference, _conferenceRegistration,
      transactional.
    rewrite (bind_Return _ _ _ _ _ (_getProfileFromUser_run w u Hu)).
    unfold bind at 1. unfold Key_get at 1. simpl. rewrite Hk.
    by rewrite attending_profile_of, (py_in_false _ _ Hnot).
Qed.

Lemma unregister_world w k :
  (unregisterFromConference k w).2 = w ∨
  (∃ u, (unregisterFromConference k w).2
        = put_profile w u (profile_of w u)) ∨
  ∃ u c,
    datastore w !! k = Some (EConference c) ∧
    k ∈ attending w (user_id u) ∧
    (unregisterFromConference k w).2
    = put_both w u
        (set_conferenceKeysToAttend (profile_of w u)
           (list_remove k (attending w (user_id u))))
        k (setattr_seatsAvailable (EConference c) (seatsAvailable c + 1)).
Proof.
  destruct (current_user w) as [u|] eqn:Hu;
    [|left; unfold unregisterFromConference;
      by rewrite (_conferenceRegistration_anonymous w k false Hu)].
  destruct (datastore w !! k) as [e|] eqn:Hk;
    [|left; unfold unregisterFromConference;
      by rewrite (_conferenceRegistration_missing w u k false Hu Hk)].
  destruct (decide (k ∈ attending w (user_id u))) as [Hin|Hnot];
    [|right; left; exists u;
      by rewrite (unregister_unlinked_run w u k e Hu Hk Hnot)].
  destruct e as [c|s|sp].
  - right. right. exists u, c. split_and!; [done..|].
    by rewrite (unregister_linked_run w u k c Hu Hk Hin).
  - left. unfold unregisterFromConference, _conferenceRegistration,
      transactional.
    rewrite (bind_Return _ _ _ _ _ (_getProfileFromUser_run w u Hu)).
    unfold bind at 1. unfold Key_get at 1. simpl. rewrite Hk.
    by rewrite attending_profile_of, (py_in_true _ _ Hin).
  - left. unfold unregisterFromConference, _conferenceRegistration,
      transactional.
    rewrite (bind_Return _ _ _ _ _ (_getProfileFromUser_run w u Hu)).
    unfold bind at 1. unfold Key_get at 1. simpl. rewrite Hk.
    by rewrite attending_profile_of, (py_in_true _ _ Hin).
Qed.

(** A wishlist operation leaves the world as it was or puts the caller's
    profile with the same conference keys. *)
Lemma wishlist_world w k :
  ∀ w', w' = (addSessionToWishlist k w).2 ∨
        w' = (deleteSessionFromWishlist k w).2 →
  w' = w ∨
  ∃ u p, conferenceKeysToAttend p = attending w (user_id u) ∧
         w' = put_profile w u p.
Proof.
  intros w' Hw'.
  destruct (current_user w) as [u|] eqn:Hu.
  - destruct (datastore w !! k) as [e|] eqn:Hk.
    + assert (is_Some (datastore w !! k)) as Hs by (rewrite Hk; by eexists).
      right. exists u.
      destruct (decide (k ∈ wishlist w (user_id u))) as [Hin|Hnot].
      * rewrite (wishlist_add_present_run w u k Hu Hs Hin),
          (wishlist_delete_run w u k Hu Hs Hin) in Hw'.
        destruct Hw' as [-> | ->]; eexists; (split; [|done]); simpl;
          apply attending_profile_of.
      * rewrite (wishlist_add_run w u k Hu Hs Hnot),
          (wishlist_delete_absent_run w u k Hu Hs Hnot) in Hw'.
        destruct Hw' as [-> | ->]; eexists; (split; [|done]); simpl;
          apply attending_profile_of.
    + left. destruct (wishlist_missing_run w u k Hu Hk) as [Ha Hd].
      rewrite Ha, Hd in Hw'. by destruct Hw'.
  - left. unfold addSessionToWishlist, deleteSessionFromWishlist in Hw'.
    rewrite !(login_required_anonymous _ w Hu) in Hw'. by destruct Hw'.
Qed.

Lemma SetAnnouncementHandler_get_world w :
  datastore (SetAnnouncementHandler_get w).2 = datastore w ∧
  profiles (SetAnnouncementHandler_get w).2 = profiles w.
Proof.
  unfold SetAnnouncementHandler_get, _cacheAnnouncement, bind,
    Conference_query_nearly_sold_out, memcache_set, memcache_delete, ret.
  by destruct (Conference_query_fetch (datastore w)).
Qed.

Lemma after_update_conferences request w k c :
  datastore (after_update request w) !! k = Some (EConference c) →
  datastore w !! k = Some (EConference c).
Proof.
  unfold after_update.
  destruct (datastore w !! task_speakerKey request) as [[c'|s|sp]|] eqn:Hk;
    try done.
  simpl. rewrite lookup_insert_Some. by intros [[_ ?]|[_ ?]].
Qed.

Lemma serve_consistent w r : consistent w → consistent (serve w r).
Proof.
  intros Hw. destruct r as [who r]. unfold serve. simpl.
  assert (consistent (as_user who w)) as Hw'
    by by apply (consistent_same w).
  set (w0 := as_user who w) in *. clearbody w0. clear w Hw.
  destruct r as [k|k|k|k|t|].
  - destruct (register_world w0 k) as [->|(u & c & Hc & Hpos & Hnot & ->)];
      [done|]. by apply consistent_register.
  - destruct (unregister_world w0 k)
      as [->|[[u ->]|(u & c & Hc & Hin & ->)]]; [done| |].
    + apply consistent_put_profile; [apply attending_profile_of|done].
    + by apply consistent_unregister.
  - destruct (wishlist_world w0 k _ (or_introl eq_refl))
      as [->|(u & p & Hp & ->)]; [done|]. by apply consistent_put_profile.
  - destruct (wishlist_world w0 k _ (or_intror eq_refl))
      as [->|(u & p & Hp & ->)]; [done|]. by apply consistent_put_profile.
  - rewrite SetFeaturedSpeakerHandler_post_run. simpl.
    apply (consistent_same (after_publish t w0));
      [by rewrite profiles_after_update|apply after_update_conferences|].
    by apply (consistent_same w0).
  - destruct (SetAnnouncementHandler_get_world w0) as [Hd Hp].
    apply (consistent_same w0); [done| |done]. intros k c. by rewrite Hd.
Qed.

End Capacity.


(** X15.  Capacity is respected along every run of the modelled handlers
    in which every request that carries a key carries the key of a stored
    entity, in the spelling it is stored under.  Start from a world in which
    no profile lists a conference twice and, for every stored conference,
    the free seats are not negative and add up with the number of registered
    profiles to [maxAttendees]; serve any sequence of such requests
    (register, unregister, wishlist add and delete, the featured-speaker
    task, the announcement cron), one after the other, each for any user or
    for nobody, whether they succeed or fail.  The same holds afterwards, so
    [0 <= seatsAvailable <= maxAttendees] and no conference has more
    registered users than [maxAttendees]. *)
Theorem capacity_respected (w : World)
    (requests : list (option User * Request)) :
  consistent w → Forall (addresses_stored w) requests →
  consistent (foldl serve w requests) ∧
  ∀ k c,
    datastore (foldl serve w requests) !! k = Some (EConference c) →
    0 ≤ seatsAvailable c ≤ maxAttendees c ∧
    Z.of_nat (registered (foldl serve w requests) k) ≤ maxAttendees c.
Proof.
  intros Hw _.
  assert (consistent (foldl serve w requests)) as Hend.
  { revert w Hw. induction requests as [|r rs IH]; intros w Hw; [done|].
    simpl. by apply IH, serve_consistent. }
  split; [done|]. intros k c Hk. destruct Hend as [_ Hseats].
  destruct (Hseats k c Hk). lia.
Qed.

Lemma opening_world_consistent : consistent opening_world.
Proof.
  split.
  - intros uid p Hp. unfold opening_world in Hp. simpl in Hp.
    apply lookup_singleton_Some in Hp as [_ <-]. constructor.
  - intros k c Hk. unfold opening_world in Hk. cbn [datastore] in Hk.
    apply elem_of_list_to_map_2 in Hk.
    rewrite !elem_of_cons, elem_of_nil in Hk.
    destruct Hk as [[= -> ->]|[[=]|[[=]|[]]]].
    vm_compute. split; [discriminate|reflexivity].
Qed.

Lemma opening_requests_stored :
  Forall (addresses_stored opening_world) opening_requests.
Proof.
  repeat constructor; intros k Hk; simpl in Hk; try discriminate Hk;
    injection Hk as <-; vm_compute; eauto.
Qed.

Lemma capacity_respected_witness :
  consistent (foldl serve opening_world opening_requests) ∧
  ∀ k c,
    datastore (foldl serve opening_world opening_requests) !! k
    = Some (EConference c) →
    0 ≤ seatsAvailable c ≤ maxAttendees c ∧
    Z.of_nat (registered (foldl serve opening_world opening_requests) k)
    ≤ maxAttendees c.
Proof.
  apply (capacity_respected opening_world opening_requests).
  - exact opening_world_consistent.
  - exact opening_requests_stored.
Defined.

Example opening_requests_ex :
  let w := foldl serve opening_world opening_requests in
  attending w "alice" = ["c2"] ∧ attending w "bob" = [] ∧
  registered w "c2" = 1%nat ∧
  datastore w !! "c2"
  = Some (EConference
            {| Conference_name := "ElixirConf"; city := "Oslo";
               topics := ["Elixir"]; month := 9; maxAttendees := 1;
               seatsAvailable := 0; organizerUserId := "bob" |}) ∧
  memcache w !! MEMCACHE_ANNOUNCEMENTS_KEY = None.
Proof. vm_compute. repeat split. Qed.

(** ** Further properties of the featured-speaker task and the announcements *)

Section CacheMore.

Implicit Types (w : World) (request : Task) (ds : gmap string Entity).

Lemma _updateSpeaker_result request w :
  _updateSpeaker request w
  = (Return (match datastore w !! task_speakerKey request with
             | Some (ESpeaker _) => true
             | _ => false
             end),
     after_update request w).
Proof.
  unfold _updateSpeaker, after_update, try_except, bind, Key_get, Entity_put,
    ret, raise. simpl.
  by destruct (datastore w !! task_speakerKey request) as [[c|s|sp]|].
Qed.

Lemma deliver_S n request w :
  deliver (S n) request w
  = deliver n request (after_update request (after_publish request w)).
Proof. simpl. by rewrite SetFeaturedSpeakerHandler_post_run. Qed.

Lemma memcache_deliver n request w :
  memcache (deliver (S n) request w)
  = memcache (after_publish request w).
Proof.
  revert w. induction n as [|n IH]; intros w.
  - rewrite deliver_S. simpl. apply memcache_after_update.
  - rewrite deliver_S, IH. apply after_publish_again.
Qed.

Lemma append_nonempty (s t : string) :
  t ≠ EmptyString → s +:+ t ≠ EmptyString.
Proof. destruct s; [done|discriminate]. Qed.

Lemma or_empty_Some (s : string) : or_empty (Some s) = s.
Proof. unfold or_empty. by case_bool_decide. Qed.

Lemma Conference_query_fetch_spec ds k c :
  (k, c) ∈ Conference_query_fetch ds ↔
  ds !! k = Some (EConference c) ∧ 0 < seatsAvailable c ≤ 5.
Proof.
  unfold Conference_query_fetch. rewrite list_elem_of_omap. split.
  - intros ([k' e] & Hin & Hm). apply elem_of_map_to_list in Hin.
    unfold nearly_sold_out in Hm. simpl in Hm.
    destruct e as [c'|s'|sp]; try discriminate Hm.
    destruct (Z.leb_spec (seatsAvailable c') 5); [|discriminate Hm].
    destruct (Z.ltb_spec 0 (seatsAvailable c')); [|discriminate Hm].
    simpl in Hm. injection Hm as -> ->. split; [done|lia].
  - intros (Hk & Hlo & Hhi). exists (k, EConference c). split.
    + by apply elem_of_map_to_list.
    + unfold nearly_sold_out. simpl.
      destruct (Z.leb_spec (seatsAvailable c) 5); [|lia].
      destruct (Z.ltb_spec 0 (seatsAvailable c)); [done|lia].
Qed.

Lemma nearly_sold_out_key kv kc :
  nearly_sold_out kv = Some kc → kc.1 = kv.1.
Proof.
  unfold nearly_sold_out. destruct (kv.2); try discriminate.
  destruct (_ && _); [|discriminate]. by intros [= <-].
Qed.

Lemma Conference_query_fetch_NoDup ds :
  NoDup (Conference_query_fetch ds).*1.
Proof.
  unfold Conference_query_fetch.
  apply (sublist_NoDup _ (map_to_list ds).*1);
    [apply NoDup_fst_map_to_list|].
  induction (map_to_list ds) as [|kv l IH]; [done|]. simpl.
  destruct (nearly_sold_out kv) as [kc|] eqn:Hm; simpl.
  - rewrite (nearly_sold_out_key _ _ Hm). by apply sublist_skip.
  - by apply sublist_cons.
Qed.

(** The announcement of the conferences [confs], and the cache after
    [_cacheAnnouncement] found them. *)
Lemma _cacheAnnouncement_run w :
  _cacheAnnouncement w =
  match Conference_query_fetch (datastore w) with
  | [] =>
      (Return EmptyString,
       {| datastore := datastore w; profiles := profiles w;
          memcache := delete MEMCACHE_ANNOUNCEMENTS_KEY (memcache w);
          current_user := current_user w |})
  | confs =>
      (Return (ANNOUNCEMENT_TPL
                 (String.concat ", "
                    ((λ conf, Conference_name conf.2) <$> confs))),
       {| datastore := datastore w; profiles := profiles w;
          memcache :=
            <[MEMCACHE_ANNOUNCEMENTS_KEY :=
                ANNOUNCEMENT_TPL
                  (String.concat ", "
                     ((λ conf, Conference_name conf.2) <$> confs))]>
              (memcache w);
          current_user := current_user w |})
  end.
Proof.
  unfold _cacheAnnouncement, bind, Conference_query_nearly_sold_out,
    memcache_set, memcache_delete, ret.
  by destruct (Conference_query_fetch (datastore w)).
Qed.

Lemma ANNOUNCEMENT_TPL_nonempty s : ANNOUNCEMENT_TPL s ≠ EmptyString.
Proof. discriminate. Qed.

End CacheMore.

(** X16.  [_updateSpeaker] never raises.  When the task's speaker key
    resolves to a [Speaker] it returns [True], appends the session name to
    [sessions] and stores the new length in [sessions_count], whatever the
    count was before; in every other case (nothing stored, or an entity of
    another kind) it returns [False] and the world is as it was.  Other
    entities, the profiles and the cache are never touched. *)
Theorem _updateSpeaker_effect (request : Task) (w : World) :
  ∃ result w',
    _updateSpeaker request w = (Return result, w') ∧
    match datastore w !! task_speakerKey request with
    | Some (ESpeaker sp) =>
        result = true ∧
        ∃ sp', datastore w' !! task_speakerKey request = Some (ESpeaker sp') ∧
               Speaker_name sp' = Speaker_name sp ∧
               sessions sp' = sessions sp ++ [task_sessionName request] ∧
               sessions_count sp' = Z.of_nat (length (sessions sp'))
    | _ => result = false ∧ w' = w
    end ∧
    (∀ k, k ≠ task_speakerKey request → datastore w' !! k = datastore w !! k) ∧
    profiles w' = profiles w ∧ memcache w' = memcache w.
Proof.
  eexists _, _. split; [apply _updateSpeaker_result|]. split_and!.
  - destruct (datastore w !! task_speakerKey request) as [[c|s|sp]|] eqn:Hk.
    1, 2, 4: split; [done|]; apply after_update_other; intros sp;
      rewrite Hk; discriminate.
    split; [done|]. eexists. split; [by apply after_update_speaker|done].
  - intros k. apply lookup_after_update_ne.
  - apply profiles_after_update.
  - apply memcache_after_update.
Qed.

(** X17.  Delivering the same task [n] times appends the session name [n]
    times to the speaker's [sessions], with [sessions_count] following the
    length; the cache after any number of deliveries is the cache after the
    first. *)
Theorem repeated_delivery (n : nat) (request : Task) (w : World) :
  memcache (deliver (S n) request w) = memcache (deliver 1 request w) ∧
  ∀ sp,
    datastore w !! task_speakerKey request = Some (ESpeaker sp) →
    ∃ sp',
      datastore (deliver n request w) !! task_speakerKey request
      = Some (ESpeaker sp') ∧
      Speaker_name sp' = Speaker_name sp ∧
      sessions sp' = sessions sp ++ replicate n (task_sessionName request) ∧
      (n ≠ 0%nat →
       sessions_count sp' = Z.of_nat (length (sessions sp) + n)).
Proof.
  split; [by rewrite !memcache_deliver|].
  revert w. induction n as [|n IH]; intros w sp Hk.
  - exists sp. rewrite app_nil_r. by split_and!.
  - rewrite deliver_S.
    destruct (IH (after_update request (after_publish request w))
                (with_session sp (task_sessionName request)))
      as (sp' & Hk' & Hname & Hs & Hcount).
    { by apply after_update_speaker. }
    exists sp'. split_and!; [done|done| |].
    + rewrite Hs. simpl. by rewrite <- app_assoc.
    + intros _. destruct n as [|n].
      * rewrite app_nil_r in Hs. simpl in Hk'.
        assert (sp' = with_session sp (task_sessionName request)) as ->.
        { rewrite (after_update_speaker request (after_publish request w) sp Hk)
            in Hk'. congruence. }
        simpl. rewrite length_app. simpl. done.
      * rewrite Hcount by done. simpl. rewrite length_app. simpl. lia.
Qed.

(** X18.  The read path after the task: [getFeaturedSpeaker] returns the
    announcement just published when the task found more than one session
    (the speaker's name and the names of the found sessions, each once, in
    the order the query yielded them, which is not fixed here), and
    otherwise what the cache held before the task, the empty string when it
    held nothing.  Reading changes nothing. *)
Theorem featured_speaker_read_back (request : Task) (w : World) :
  let found := found_sessions request w in
  let w' := (SetFeaturedSpeakerHandler_post request w).2 in
  ∃ text,
    getFeaturedSpeaker w' = (Return {| StringMessage_data := text |}, w') ∧
    if bool_decide (1 < length found)%nat
    then ∃ names,
           names ≡ₚ (λ ks, Session_name ks.2) <$> found ∧
           text = announcement (task_speakerName request) names
    else text = or_empty (memcache w !! MEMCACHE_FEATURED_SPEAKER).
Proof.
  intros found w'. unfold w', getFeaturedSpeaker, bind, memcache_get, ret.
  rewrite SetFeaturedSpeakerHandler_post_run. simpl.
  rewrite memcache_after_update. unfold after_publish. simpl.
  fold found. eexists. split; [reflexivity|].
  case_bool_decide; [|done].
  exists ((λ ks, Session_name ks.2) <$> found).
  split; [done|]. by rewrite lookup_insert_eq, or_empty_Some.
Qed.

(** X19.  [_cacheAnnouncement] finds exactly the stored conferences with
    between one and five seats left, each once.  When there is one it
    caches and returns the announcement that lists their names, each once,
    joined by [", "] in the order the query yields them, which is not fixed
    here: the names are those of the found conferences up to a permutation.
    When there is none it deletes the cache entry and returns the empty
    string.  The datastore and the profiles are untouched. *)
Theorem _cacheAnnouncement_effect (w : World) :
  let confs := Conference_query_fetch (datastore w) in
  (∀ k c, (k, c) ∈ confs ↔
          datastore w !! k = Some (EConference c) ∧
          0 < seatsAvailable c ≤ 5) ∧
  NoDup confs.*1 ∧
  ∃ text w',
    _cacheAnnouncement w = (Return text, w') ∧
    (if bool_decide (confs = [])
     then text = EmptyString ∧
          memcache w' = delete MEMCACHE_ANNOUNCEMENTS_KEY (memcache w)
     else ∃ names,
            names ≡ₚ (λ conf, Conference_name conf.2) <$> confs ∧
            text = ANNOUNCEMENT_TPL (String.concat ", " names) ∧
            memcache w' = <[MEMCACHE_ANNOUNCEMENTS_KEY := text]> (memcache w)) ∧
    datastore w' = datastore w ∧ profiles w' = profiles w.
Proof.
  intros confs. split_and!.
  - apply Conference_query_fetch_spec.
  - apply Conference_query_fetch_NoDup.
  - rewrite _cacheAnnouncement_run. unfold confs.
    destruct (Conference_query_fetch (datastore w)) as [|kc l]; eexists _, _;
      split_and!; try done.
    rewrite bool_decide_eq_false_2 by done.
    by exists ((λ conf, Conference_name conf.2) <$> kc :: l).
Qed.

(** X20.  What [getAnnouncement] returns right after [_cacheAnnouncement]
    is the string [_cacheAnnouncement] returned; it is the empty string
    exactly when no stored conference has between one and five seats
    left. *)
Theorem announcement_read_back (w : World) :
  ∃ text w',
    _cacheAnnouncement w = (Return text, w') ∧
    getAnnouncement w' = (Return {| StringMessage_data := text |}, w') ∧
    (text = EmptyString ↔
     ∀ k c, datastore w !! k = Some (EConference c) →
            ¬ (0 < seatsAvailable c ≤ 5)).
Proof.
  rewrite _cacheAnnouncement_run.
  pose proof (Conference_query_fetch_spec (datastore w)) as Hspec.
  destruct (Conference_query_fetch (datastore w)) as [|[k0 c0] l];
    eexists _, _; split_and!; try done.
  - unfold getAnnouncement, bind, memcache_get, ret. simpl.
    by rewrite lookup_delete_eq.
  - split; [|done]. intros _ k c Hk Hseats.
    apply (elem_of_nil (k, c)). apply Hspec. done.
  - unfold getAnnouncement, bind, memcache_get, ret. simpl.
    by rewrite lookup_insert_eq, or_empty_Some.
  - split; [intros H; by destruct (ANNOUNCEMENT_TPL_nonempty _ H)|].
    intros Hnone. destruct (proj1 (Hspec k0 c0)) as [Hk Hseats];
      [apply list_elem_of_here|]. by destruct (Hnone k0 c0 Hk).
Qed.

(** X21.  The announcement cron answers 204 and is idempotent: a second run
    leaves the world the first run left.  It never touches the
    featured-speaker entry of the cache, and the featured-speaker task never
    touches the announcement entry. *)
Theorem announcement_cron (request : Task) (w : World) :
  (SetAnnouncementHandler_get w).1 = Return 204 ∧
  (SetAnnouncementHandler_get (SetAnnouncementHandler_get w).2).2
  = (SetAnnouncementHandler_get w).2 ∧
  memcache (SetAnnouncementHandler_get w).2 !! MEMCACHE_FEATURED_SPEAKER
  = memcache w !! MEMCACHE_FEATURED_SPEAKER ∧
  memcache (SetFeaturedSpeakerHandler_post request w).2
    !! MEMCACHE_ANNOUNCEMENTS_KEY
  = memcache w !! MEMCACHE_ANNOUNCEMENTS_KEY.
Proof.
  assert (∀ w0, SetAnnouncementHandler_get w0
                = (Return 204, (_cacheAnnouncement w0).2)) as Hget.
  { intros w0. unfold SetAnnouncementHandler_get, bind, ret.
    rewrite _cacheAnnouncement_run.
    by destruct (Conference_query_fetch (datastore w0)). }
  split_and!.
  - by rewrite Hget.
  - rewrite !Hget. cbn [snd].
    rewrite (_cacheAnnouncement_run (_cacheAnnouncement w).2).
    rewrite _cacheAnnouncement_run.
    destruct (Conference_query_fetch (datastore w)) as [|kc l] eqn:Hq; simpl;
      rewrite Hq; simpl.
    + by rewrite (delete_id (delete _ _)) by apply lookup_delete_eq.
    + by rewrite insert_insert_eq.
  - rewrite Hget. cbn [snd]. rewrite _cacheAnnouncement_run.
    destruct (Conference_query_fetch (datastore w)); simpl.
    + by rewrite lookup_delete_ne.
    + by rewrite lookup_insert_ne.
  - rewrite SetFeaturedSpeakerHandler_post_run. cbn [snd].
    rewrite memcache_after_update.
    unfold after_publish. simpl. case_bool_decide; [|done].
    by rewrite lookup_insert_ne.
Qed.

Lemma register_full_run (w : World) (u : User) (k : string) (c : Conference) :
  current_user w = Some u →
  datastore w !! k = Some (EConference c) →
  seatsAvailable c ≤ 0 →
  k ∉ attending w (user_id u) →
  registerForConference k w
  = (Raise (ConflictException "There are no seats available."), w).
Proof.
  intros Hu Hk Hfull Hnot.
  unfold registerForConference, _conferenceRegistration, transactional.
  rewrite (bind_Return _ _ _ _ _ (_getProfileFromUser_run w u Hu)).
  unfold bind at 1. unfold Key_get at 1. simpl. rewrite Hk.
  rewrite attending_profile_of, (py_in_false _ _ Hnot).
  unfold bind at 1. simpl. unfold bind, ret.
  destruct (Z.leb_spec (seatsAvailable c) 0) as [_|?]; [done|lia].
Qed.

(** X22.  The last seat goes to one user only.  When a conference has one
    seat left and two different users, neither registered, ask for it one
    after the other, the first call succeeds and the second is refused with
    [ConflictException] "There are no seats available.", leaving the world
    the first call produced: the first user is registered, the second is
    not, and no seat is left. *)
Theorem last_seat_taken_once (w : World) (u1 u2 : User) (k : string)
    (c : Conference) :
  user_id u1 ≠ user_id u2 →
  datastore w !! k = Some (EConference c) →
  seatsAvailable c = 1 →
  k ∉ attending w (user_id u1) →
  k ∉ attending w (user_id u2) →
  ∃ w1 c1,
    registerForConference k (as_user (Some u1) w)
    = (Return {| data := true |}, w1) ∧
    registerForConference k (as_user (Some u2) w1)
    = (Raise (ConflictException "There are no seats available."),
       as_user (Some u2) w1) ∧
    datastore w1 !! k = Some (EConference c1) ∧ seatsAvailable c1 = 0 ∧
    k ∈ attending w1 (user_id u1) ∧ k ∉ attending w1 (user_id u2).
Proof.
  intros Hne Hk Hone Hnot1 Hnot2. eexists _, _.
  rewrite (register_run (as_user (Some u1) w) u1 k c eq_refl Hk)
    by (done || lia).
  split_and!.
  - done.
  - eapply (register_full_run _ u2 k); [done|apply lookup_insert_eq| |].
    + simpl. lia.
    + unfold attending. simpl. by rewrite lookup_insert_ne.
  - apply lookup_insert_eq.
  - simpl. lia.
  - rewrite attending_put_both. simpl.
    apply elem_of_app. right. apply list_elem_of_here.
  - unfold attending. simpl. by rewrite lookup_insert_ne.
Qed.

Lemma last_seat_taken_once_witness :
  ∃ w1 c1,
    registerForConference "c2" (as_user (Some alice) opening_world)
    = (Return {| data := true |}, w1) ∧
    registerForConference "c2" (as_user (Some bob) w1)
    = (Raise (ConflictException "There are no seats available."),
       as_user (Some bob) w1) ∧
    datastore w1 !! "c2" = Some (EConference c1) ∧ seatsAvailable c1 = 0 ∧
    "c2" ∈ attending w1 "alice" ∧ "c2" ∉ attending w1 "bob".
Proof.
  apply (last_seat_taken_once opening_world alice bob "c2" last_seat).
  - discriminate.
  - reflexivity.
  - reflexivity.
  - apply (bool_decide_unpack _). vm_compute. exact I.
  - apply (bool_decide_unpack _). vm_compute. exact I.
Defined.

(** X23.  Registration and the announcement compose: right after a
    successful registration for a conference that had [n] seats, the
    announcement query finds that conference exactly when [2 <= n <= 6],
    that is when between one and five seats are left. *)
Theorem registration_then_announcement (w : World) (u : User) (k : string)
    (c : Conference) :
  current_user w = Some u →
  datastore w !! k = Some (EConference c) →
  0 < seatsAvailable c →
  k ∉ attending w (user_id u) →
  ∃ w' c',
    registerForConference k w = (Return {| data := true |}, w') ∧
    datastore w' !! k = Some (EConference c') ∧
    ((k, c') ∈ Conference_query_fetch (datastore w') ↔
     2 ≤ seatsAvailable c ≤ 6).
Proof.
  intros Hu Hk Hpos Hnot. eexists _, _.
  rewrite (register_run w u k c Hu Hk Hpos Hnot). split_and!.
  - done.
  - apply lookup_insert_eq.
  - rewrite Conference_query_fetch_spec. simpl. rewrite lookup_insert_eq.
    split; [intros [_ ?]; lia|intros ?; split; [done|lia]].
Qed.

Lemma registration_then_announcement_witness :
  ∃ w' c',
    registerForConference "c1" sample_world = (Return {| data := true |}, w') ∧
    datastore w' !! "c1" = Some (EConference c') ∧
    (("c1", c') ∈ Conference_query_fetch (datastore w') ↔ 2 ≤ 2 ≤ 6).
Proof.
  apply (registration_then_announcement sample_world alice "c1"
           open_conference).
  - reflexivity.
  - reflexivity.
  - reflexivity.
  - apply (bool_decide_unpack _). vm_compute. exact I.
Defined.
